(** * approval-lane-buddy: the approval queue and its store

    A shallow embedding of the database side of the repository (the
    [approval_requests], [approval_actions] and [profiles] tables, their
    row-level-security policies and their triggers, as the migrations leave
    them once all of them have run) and of the two React handlers that
    write to it, [handleSubmit] and [handleApprovalAction].

    Conventions.
    - [uuid] and [text] columns are strings, [timestamptz] is an integer
      number of ticks, the nullable [integer] column [queue_position] is an
      [option Z]; tables are assumed to hold fewer than 2^31 rows, so that
      ROW_NUMBER and COUNT fit the [integer] column.
    - [now()] is the timestamp of the running transaction and
      [gen_random_uuid()] the identifier it draws: both are arguments of the
      statement that uses them.
    - ROW_NUMBER() OVER (ORDER BY created_at) leaves the order of rows with
      equal [created_at] to the executor, and a row that was rewritten can
      change its place in that order. Here it is the order [merge_sort]
      gives on the list that stands for the table. The lemmas on [dense]
      and [ordered] only use that the result is a sorted permutation; a
      statement that would depend on the order of equal creation times
      assumes that the pending requests have distinct ones
      ([distinct_times]) and then holds for every order of the table.
    - Only failures the schema itself produces are modelled (NOT NULL,
      primary and foreign keys, row-level security); an unreachable store is
      not. *)

From stdpp Require Import base strings list sorting.
From Stdlib Require Import ZArith Lia.

Local Open Scope Z_scope.

Abbreviation uuid := string.
Abbreviation timestamptz := Z.

(** ** Tables *)

(** [CREATE TABLE public.profiles]. *)
Module profiles.
Record row := mk {
  id : uuid;
  name : string;
  department : string;
  role : string;
  created_at : timestamptz;
  updated_at : timestamptz }.

Global Instance row_eq_dec : EqDecision row.
Proof. solve_decision. Defined.
End profiles.

(** [CREATE TABLE public.approval_requests]. *)
Module approval_requests.
Record row := mk {
  id : uuid;
  user_id : uuid;
  title : string;
  content : option string;
  department : string;
  status : string;
  queue_position : option Z;
  created_at : timestamptz;
  updated_at : timestamptz }.

Global Instance row_eq_dec : EqDecision row.
Proof. solve_decision. Defined.

Definition set_status (s : string) (r : row) : row :=
  mk (id r) (user_id r) (title r) (content r) (department r) s
     (queue_position r) (created_at r) (updated_at r).
Definition set_title (t : string) (r : row) : row :=
  mk (id r) (user_id r) t (content r) (department r) (status r)
     (queue_position r) (created_at r) (updated_at r).
Definition set_content (c : option string) (r : row) : row :=
  mk (id r) (user_id r) (title r) c (department r) (status r)
     (queue_position r) (created_at r) (updated_at r).
Definition set_queue_position (p : option Z) (r : row) : row :=
  mk (id r) (user_id r) (title r) (content r) (department r) (status r)
     p (created_at r) (updated_at r).
Definition set_updated_at (t : timestamptz) (r : row) : row :=
  mk (id r) (user_id r) (title r) (content r) (department r) (status r)
     (queue_position r) (created_at r) t.
End approval_requests.

(** [CREATE TABLE public.approval_actions]. *)
Module approval_actions.
Record row := mk {
  id : uuid;
  request_id : uuid;
  approver_id : uuid;
  action : string;
  comment : option string;
  created_at : timestamptz }.

Global Instance row_eq_dec : EqDecision row.
Proof. solve_decision. Defined.
End approval_actions.

Import approval_requests.

Record database := mk_database {
  db_profiles : list profiles.row;
  db_requests : list approval_requests.row;
  db_actions : list approval_actions.row }.

(** ** The queue maintainer: [update_queue_positions]

    The function and its trigger as the last migration declares them: a
    BEFORE INSERT OR UPDATE OF status row trigger. It drops the trigger of
    the earlier migrations, which ran an unguarded recompute AFTER INSERT OR
    UPDATE OR DELETE, once per statement. *)

(** The trigger event: [TG_OP], with the [OLD] row an update carries. *)
Inductive tg_event :=
  | TG_INSERT
  | TG_UPDATE (OLD : row).

Definition is_insert (ev : tg_event) : Prop :=
  match ev with TG_INSERT => True | TG_UPDATE _ => False end.

Global Instance is_insert_dec ev : Decision (is_insert ev).
Proof. destruct ev; simpl; apply _. Defined.

(** The outer [IF]: an update that changes [status] or [queue_position] and
    has 'pending' on one side, or an insert of a pending row. *)
Definition maintainer_fires (ev : tg_event) (NEW : row) : Prop :=
  match ev with
  | TG_UPDATE OLD =>
      (status OLD ≠ status NEW ∨ queue_position OLD ≠ queue_position NEW)
      ∧ (status OLD = "pending"%string ∨ status NEW = "pending"%string)
  | TG_INSERT => status NEW = "pending"%string
  end.

Global Instance maintainer_fires_dec ev NEW : Decision (maintainer_fires ev NEW).
Proof. destruct ev; simpl; apply _. Defined.

(** The WHERE clause of the CTE: pending rows, without the row being
    updated. *)
Definition in_scope (ev : tg_event) (NEW : row) (r : row) : Prop :=
  status r = "pending"%string ∧ (is_insert ev ∨ id r ≠ id NEW).

Global Instance in_scope_dec ev NEW r : Decision (in_scope ev NEW r).
Proof. unfold in_scope. apply _. Defined.

(** SELECT id ... ORDER BY created_at: the two columns the CTE reads off
    the rows in scope, and the order on them. *)
Definition candidates (ev : tg_event) (NEW : row) (tbl : list row)
  : list (uuid * timestamptz) :=
  (λ r, (id r, created_at r)) <$> filter (in_scope ev NEW) tbl.

Definition created_le : relation (uuid * timestamptz) := λ a b, a.2 ≤ b.2.

Global Instance created_le_dec a b : Decision (created_le a b).
Proof. unfold created_le. apply _. Defined.

Global Instance created_le_trans : Transitive created_le.
Proof. unfold created_le. intros a b c. lia. Qed.

Global Instance created_le_total : Total created_le.
Proof. unfold created_le. intros a b. lia. Qed.

(** The CTE [ranked_requests]: [(id, new_position)] for every row in scope,
    numbered from 1 in creation order. The ORDER BY names [created_at]
    only: rows with one creation time are numbered in the order the
    executor finds them, here the order of the list. *)
Definition ranked_requests (ev : tg_event) (NEW : row) (tbl : list row)
  : list (uuid * Z) :=
  imap (λ i c, (c.1, Z.of_nat (S i)))
       (merge_sort created_le (candidates ev NEW tbl)).

(** The join [approval_requests.id = ranked_requests.id]. *)
Fixpoint new_position (ranked : list (uuid * Z)) (i : uuid) : option Z :=
  match ranked with
  | [] => None
  | (j, p) :: rest => if decide (j = i) then Some p else new_position rest i
  end.

(** [update_updated_at_column]: the BEFORE UPDATE row trigger of the
    table. *)
Definition update_updated_at_column (now : timestamptz) (NEW : row) : row :=
  set_updated_at now NEW.

(** Whether the inner UPDATE writes the row: it joins, and its position IS
    DISTINCT FROM the new one. *)
Definition needs_rewrite (ranked : list (uuid * Z)) (r : row) : Prop :=
  ∃ p, new_position ranked (id r) = Some p ∧ queue_position r ≠ Some p.

Global Instance needs_rewrite_dec ranked r : Decision (needs_rewrite ranked r).
Proof.
  unfold needs_rewrite. destruct (new_position ranked (id r)) as [p|].
  - destruct (decide (queue_position r = Some p)) as [E|E].
    + right. intros (q & Hq & Hne). congruence.
    + left. eauto.
  - right. intros (q & Hq & _). discriminate.
Defined.

(** One row under the inner UPDATE. Its SET list names [queue_position]
    only, so of the row triggers only [update_updated_at_column] runs. *)
Definition reposition (now : timestamptz) (ranked : list (uuid * Z)) (r : row)
  : row :=
  match new_position ranked (id r) with
  | Some p =>
      if decide (queue_position r = Some p) then r
      else update_updated_at_column now (set_queue_position (Some p) r)
  | None => r
  end.

(** SELECT COUNT( * ) + 1 ... WHERE status = 'pending' AND created_at <
    NEW.created_at. *)
Definition count_earlier (NEW : row) (tbl : list row) : Z :=
  Z.of_nat (length (filter (λ r, status r = "pending"%string
                                 ∧ created_at r < created_at NEW) tbl)).

(** What one run of the trigger function leaves behind: the row it returns,
    the table after its inner UPDATE, whether the recompute ran and the rows
    it wrote. *)
Record maintainer_run := mk_run {
  run_new : row;
  run_table : list row;
  run_recomputed : bool;
  run_rewritten : list uuid }.

Definition update_queue_positions
    (ev : tg_event) (NEW : row) (now : timestamptz) (tbl : list row)
  : maintainer_run :=
  if decide (maintainer_fires ev NEW) then
    let ranked := ranked_requests ev NEW tbl in
    let tbl' := reposition now ranked <$> tbl in
    let NEW' :=
      if decide (status NEW = "pending"%string)
      then set_queue_position (Some (count_earlier NEW tbl' + 1)) NEW
      else NEW in
    mk_run NEW' tbl' true (id <$> filter (needs_rewrite ranked) tbl)
  else mk_run NEW tbl false [].

(** ** Row-level security *)

(** EXISTS (SELECT 1 FROM public.profiles WHERE id = auth.uid() AND role IN
    ('approver', 'admin')); [uid] is [auth.uid()], [None] without a
    session. *)
Definition is_approver (ps : list profiles.row) (uid : option uuid) : Prop :=
  Exists (λ p, uid = Some (profiles.id p)
               ∧ (profiles.role p = "approver"%string
                  ∨ profiles.role p = "admin"%string)) ps.

Global Instance is_approver_dec ps uid : Decision (is_approver ps uid).
Proof. unfold is_approver. apply _. Defined.

(** "Users can create their own requests": WITH CHECK (auth.uid() =
    user_id), read on the [user_id] the new row carries, [None] for NULL. A
    comparison with NULL is not true, so a row without [user_id] fails the
    check, as does every row sent without a session. *)
Definition can_insert_request (uid : option uuid) (user_id : option uuid)
  : Prop :=
  is_Some user_id ∧ uid = user_id.

Global Instance can_insert_request_dec uid user_id :
  Decision (can_insert_request uid user_id).
Proof. unfold can_insert_request. apply _. Defined.

(** "Users can update their own requests" or "Approvers can update request
    status": permissive policies add up. *)
Definition can_update_request
    (ps : list profiles.row) (uid : option uuid) (r : row) : Prop :=
  uid = Some (user_id r) ∨ is_approver ps uid.

Global Instance can_update_request_dec ps uid r :
  Decision (can_update_request ps uid r).
Proof. unfold can_update_request. apply _. Defined.

(** "Approvers can create approval actions": WITH CHECK (auth.uid() =
    approver_id AND EXISTS (...)), read on the [approver_id] the new row
    carries, [None] for NULL. *)
Definition can_insert_action
    (ps : list profiles.row) (uid : option uuid) (approver_id : option uuid)
  : Prop :=
  is_Some approver_id ∧ uid = approver_id ∧ is_approver ps uid.

Global Instance can_insert_action_dec ps uid approver_id :
  Decision (can_insert_action ps uid approver_id).
Proof. unfold can_insert_action. apply _. Defined.

(** ** Statements on the store *)

Inductive pg_error :=
  | not_null_violation (column : string)
  | unique_violation
  | foreign_key_violation
  | rls_violation.

Inductive response (A : Type) :=
  | ok (a : A)
  | error (e : pg_error).
Arguments ok {A} a.
Arguments error {A} e.

(** The values an INSERT INTO approval_requests supplies. [None] is a column
    left out: the DEFAULT applies where there is one, NULL otherwise. *)
Record insert_values := mk_insert {
  ins_id : option uuid;
  ins_user_id : option uuid;
  ins_title : option string;
  ins_content : option string;
  ins_department : option string;
  ins_status : option string;
  ins_queue_position : option Z;
  ins_created_at : option timestamptz;
  ins_updated_at : option timestamptz }.

(** INSERT INTO approval_requests. The server runs the BEFORE INSERT row
    trigger on the row that is not yet in the table, then the WITH CHECK of
    the insert policy, then the NOT NULL constraints in column order, then
    the primary key; a failed check undoes the trigger's writes with the
    rest of the statement. The trigger writes [queue_position] only, so the
    policy and the NOT NULL constraints are decided on the values sent, and
    the first of them that fails names the error. The reference of
    [user_id] into the authentication schema is not modelled. *)
Definition insert_request
    (uid : option uuid) (now : timestamptz) (gen_random_uuid : uuid)
    (v : insert_values) (db : database) : response database :=
  if decide (can_insert_request uid (ins_user_id v)) then
    match ins_user_id v, ins_title v, ins_department v with
    | None, _, _ => error (not_null_violation "user_id")
    | _, None, _ => error (not_null_violation "title")
    | _, _, None => error (not_null_violation "department")
    | Some u, Some t, Some d =>
        let NEW :=
          mk (default gen_random_uuid (ins_id v)) u t (ins_content v) d
             (default "pending"%string (ins_status v)) (ins_queue_position v)
             (default now (ins_created_at v))
             (default now (ins_updated_at v)) in
        let run := update_queue_positions TG_INSERT NEW now (db_requests db) in
        if decide (id NEW ∈ id <$> db_requests db) then error unique_violation
        else ok (mk_database (db_profiles db)
                             (run_table run ++ [run_new run])
                             (db_actions db))
    end
  else error rls_violation.

(** The SET list of an UPDATE approval_requests: [None] is a column it does
    not name. *)
Record update_set := mk_update {
  upd_title : option string;
  upd_content : option (option string);
  upd_status : option string;
  upd_queue_position : option (option Z) }.

Definition apply_set (u : update_set) (r : row) : row :=
  let r1 := from_option (λ t, set_title t r) r (upd_title u) in
  let r2 := from_option (λ c, set_content c r1) r1 (upd_content u) in
  let r3 := from_option (λ s, set_status s r2) r2 (upd_status u) in
  from_option (λ p, set_queue_position p r3) r3 (upd_queue_position u).

Definition find_row (requestId : uuid) (tbl : list row) : option row :=
  snd <$> list_find (λ r, id r = requestId) tbl.

Definition replace_row (requestId : uuid) (NEW : row) (tbl : list row)
  : list row :=
  (λ r, if decide (id r = requestId) then NEW else r) <$> tbl.

(** UPDATE approval_requests SET ... WHERE id = requestId. A row the
    policies hide is skipped without an error. The BEFORE UPDATE row
    triggers run in name order: [update_approval_requests_updated_at], then
    [update_queue_positions_trigger], which is declared UPDATE OF status and
    so runs only when the SET list names [status]. No SET list modelled
    names [user_id], so the new row passes the policies the old one passed.
    The second component is the run of the maintainer, when there was
    one. *)
Definition update_request
    (uid : option uuid) (now : timestamptz) (u : update_set)
    (requestId : uuid) (db : database) : database * option maintainer_run :=
  match find_row requestId (db_requests db) with
  | Some OLD =>
      if decide (can_update_request (db_profiles db) uid OLD) then
        let NEW := update_updated_at_column now (apply_set u OLD) in
        match upd_status u with
        | Some _ =>
            let run :=
              update_queue_positions (TG_UPDATE OLD) NEW now (db_requests db) in
            (mk_database (db_profiles db)
                         (replace_row requestId (run_new run) (run_table run))
                         (db_actions db),
             Some run)
        | None =>
            (mk_database (db_profiles db)
                         (replace_row requestId NEW (db_requests db))
                         (db_actions db),
             None)
        end
      else (db, None)
  | None => (db, None)
  end.

(** DELETE FROM approval_requests WHERE id = requestId, as the owner of the
    table or the cascade from a deleted account runs it (no policy lets a
    client delete). No trigger of the table fires on DELETE; the actions of
    the request go with it (ON DELETE CASCADE). *)
Definition delete_request (requestId : uuid) (db : database) : database :=
  mk_database (db_profiles db)
              (filter (λ r, id r ≠ requestId) (db_requests db))
              (filter (λ a, approval_actions.request_id a ≠ requestId)
                      (db_actions db)).

(** The values an INSERT INTO approval_actions supplies. *)
Record action_values := mk_action {
  act_request_id : option uuid;
  act_approver_id : option uuid;
  act_action : option string;
  act_comment : option string }.

(** INSERT INTO approval_actions: the WITH CHECK of the insert policy, then
    the NOT NULL constraints in column order, then the primary key as the
    row enters its index, and the reference to the request when the
    statement ends. *)
Definition insert_action
    (uid : option uuid) (now : timestamptz) (gen_random_uuid : uuid)
    (v : action_values) (db : database) : response database :=
  if decide (can_insert_action (db_profiles db) uid (act_approver_id v)) then
    match act_request_id v, act_approver_id v, act_action v with
    | None, _, _ => error (not_null_violation "request_id")
    | _, None, _ => error (not_null_violation "approver_id")
    | _, _, None => error (not_null_violation "action")
    | Some r, Some a, Some d =>
        let NEW :=
          approval_actions.mk gen_random_uuid r a d (act_comment v) now in
        if decide (gen_random_uuid ∈ approval_actions.id <$> db_actions db)
        then error unique_violation
        else if decide (r ∈ id <$> db_requests db)
        then ok (mk_database (db_profiles db) (db_requests db)
                             (db_actions db ++ [NEW]))
        else error foreign_key_violation
    end
  else error rls_violation.

(** ** The handlers of the client *)

(** The [action] argument of [handleApprovalAction]: 'approved' |
    'rejected'. *)
Inductive decision := approved | rejected.

Definition decision_text (a : decision) : string :=
  match a with approved => "approved" | rejected => "rejected" end.

(** The notices the handlers raise. *)
Inductive toast :=
  | toast_no_permission
  | toast_decided (a : decision)
  | toast_processing_failed
  | toast_submitted
  | toast_submit_failed (e : pg_error).

Definition status_update (a : decision) : update_set :=
  mk_update None None (Some (decision_text a)) None.

Definition action_record (requestId approver : uuid) (a : decision)
  : action_values :=
  mk_action (Some requestId) (Some approver) (Some (decision_text a))
            (Some (match a with
                   | approved => "승인 처리됨"
                   | rejected => "반려 처리됨"
                   end)%string).

(** [handleApprovalAction] of ApprovalQueue.tsx. [user] and [profile] are
    what [useAuth] holds; the session of the two requests is the one of
    [user]. The update and the insert are two requests, each a transaction
    of its own. The update statement has no failure among those modelled,
    so the first [throw] is never reached. *)
Definition handleApprovalAction
    (user : option uuid) (profile : option profiles.row)
    (requestId : uuid) (action : decision)
    (now_update now_insert : timestamptz) (gen_random_uuid : uuid)
    (db : database) : database * toast :=
  match user, profile with
  | Some u, Some p =>
      if decide (profiles.role p ≠ "approver"%string
                 ∧ profiles.role p ≠ "admin"%string)
      then (db, toast_no_permission)
      else
        let db1 :=
          fst (update_request (Some u) now_update (status_update action)
                              requestId db) in
        match insert_action (Some u) now_insert gen_random_uuid
                            (action_record requestId u action) db1 with
        | ok db2 => (db2, toast_decided action)
        | error _ => (db1, toast_processing_failed)
        end
  | _, _ => (db, toast_no_permission)
  end.

(** [handleSubmit] of the request form: [title] and [content] are the state
    of the two inputs, strings that may be empty. Without a user or a
    profile it returns at once, with no notice. *)
Definition handleSubmit
    (user : option uuid) (profile : option profiles.row)
    (title content : string)
    (now : timestamptz) (gen_random_uuid : uuid) (db : database)
  : database * option toast :=
  match user, profile with
  | Some u, Some p =>
      match insert_request (Some u) now gen_random_uuid
              (mk_insert None (Some u) (Some title) (Some content)
                         (Some (profiles.department p))
                         (Some "pending"%string) None None None) db with
      | ok db' => (db', Some toast_submitted)
      | error e => (db, Some (toast_submit_failed e))
      end
  | _, _ => (db, None)
  end.

(** The form of the dialog, <form onSubmit={handleSubmit}>. Its title input
    is [required]: on a submit with an empty title the browser reports the
    missing value and does not run the handler. The content box has no
    constraint. *)
Definition form_onSubmit
    (user : option uuid) (profile : option profiles.row)
    (title content : string)
    (now : timestamptz) (gen_random_uuid : uuid) (db : database)
  : database * option toast :=
  if decide (title = ""%string) then (db, None)
  else handleSubmit user profile title content now gen_random_uuid db.

(** ** Profiles: sign-up, roles and their administration *)

(** [handle_new_user], the AFTER INSERT trigger on the accounts: it runs as
    SECURITY DEFINER, so no policy applies. [meta_name] and
    [meta_department] are the two keys of [raw_user_meta_data], [None] where
    the key is missing. *)
Definition handle_new_user
    (NEW_id : uuid) (meta_name meta_department : option string)
    (now : timestamptz) (db : database) : response database :=
  if decide (NEW_id ∈ profiles.id <$> db_profiles db) then error unique_violation
  else ok (mk_database
             (db_profiles db
              ++ [profiles.mk NEW_id (default "Unknown"%string meta_name)
                    (default "General"%string meta_department)
                    "employee" now now])
             (db_requests db) (db_actions db)).

(** [get_current_user_role]: SELECT role FROM profiles WHERE id =
    auth.uid(). *)
Definition get_current_user_role
    (ps : list profiles.row) (uid : option uuid) : option string :=
  profiles.role <$> (snd <$> list_find (λ p, uid = Some (profiles.id p)) ps).

(** "Users can update their own profile". *)
Definition can_update_profile (uid : option uuid) (p : profiles.row) : Prop :=
  uid = Some (profiles.id p).

Global Instance can_update_profile_dec uid p : Decision (can_update_profile uid p).
Proof. unfold can_update_profile. apply _. Defined.

(** UPDATE profiles SET role = newRole WHERE id = userId, with the BEFORE
    UPDATE row trigger [update_profiles_updated_at]. *)
Definition update_profile_role
    (uid : option uuid) (now : timestamptz) (userId : uuid) (newRole : string)
    (db : database) : database :=
  mk_database
    ((λ p, if decide (profiles.id p = userId ∧ can_update_profile uid p)
           then profiles.mk (profiles.id p) (profiles.name p)
                            (profiles.department p) newRole
                            (profiles.created_at p) now
           else p) <$> db_profiles db)
    (db_requests db) (db_actions db).

(** The admin page. *)
Module Admin.
Inductive toast := role_changed | role_change_failed.

(** [updateUserRole]: the statement has no failure among those modelled, so
    the notice is the one of success. *)
Definition updateUserRole
    (uid : option uuid) (now : timestamptz) (userId : uuid) (newRole : string)
    (db : database) : database * toast :=
  (update_profile_role uid now userId newRole db, role_changed).

Record AdminStats := mk_stats {
  totalUsers : nat;
  totalRequests : nat;
  pendingRequests : nat;
  approvedRequests : nat;
  rejectedRequests : nat }.

(** The statistics of [loadAdminData]. *)
Definition loadAdminData (db : database) : AdminStats :=
  mk_stats
    (length (db_profiles db))
    (length (db_requests db))
    (length (filter (λ r, status r = "pending"%string) (db_requests db)))
    (length (filter (λ r, status r = "approved"%string) (db_requests db)))
    (length (filter (λ r, status r = "rejected"%string) (db_requests db))).
End Admin.

(** ** The queue as the client shows it *)

Module ApprovalQueue.
(** A request as [fetchRequests] keeps it: the row, and under [profiles] the
    name of its submitter, or null. *)
Record ApprovalRequest := mk_request {
  request : row;
  profiles_name : option string }.

(** .order('queue_position', { ascending: true }): ascending, NULL
    positions last. *)
Definition nulls_last : relation (option Z) := λ p q,
  match p, q with
  | Some x, Some y => x ≤ y
  | _, None => True
  | None, Some _ => False
  end.

Definition position_le : relation row := λ a b,
  nulls_last (queue_position a) (queue_position b).

Global Instance nulls_last_dec p q : Decision (nulls_last p q).
Proof. unfold nulls_last. repeat case_match; apply _. Defined.

Global Instance position_le_dec a b : Decision (position_le a b).
Proof. unfold position_le. apply _. Defined.

Global Instance nulls_last_trans : Transitive nulls_last.
Proof. intros [x|] [y|] [z|]; unfold nulls_last; try done. lia. Qed.

Global Instance nulls_last_total : Total nulls_last.
Proof. intros [x|] [y|]; unfold nulls_last; try tauto. lia. Qed.

Global Instance nulls_last_antisymm : AntiSymm (=) nulls_last.
Proof.
  intros [x|] [y|]; unfold nulls_last; try done.
  intros ? ?. f_equal. lia.
Qed.

Global Instance position_le_trans : Transitive position_le.
Proof. intros a b c. unfold position_le. apply nulls_last_trans. Qed.

Global Instance position_le_total : Total position_le.
Proof. intros a b. unfold position_le. apply nulls_last_total. Qed.

(** .from('profiles').select('name').eq('id', user_id).single(): the name
    when exactly one profile matches. *)
Definition single_name (ps : list profiles.row) (user : uuid) : option string :=
  match filter (λ p, profiles.id p = user) ps with
  | [p] => Some (profiles.name p)
  | _ => None
  end.

Definition fetchRequests (db : database) : list ApprovalRequest :=
  (λ r, mk_request r (single_name (db_profiles db) (user_id r)))
  <$> merge_sort position_le (db_requests db).

Definition pendingRequests (requests : list ApprovalRequest)
  : list ApprovalRequest :=
  filter (λ req, status (request req) = "pending"%string) requests.

(** The badge of a pending card: request.queue_position || index + 1. *)
Definition badge (index : nat) (req : ApprovalRequest) : Z :=
  match queue_position (request req) with
  | Some p => if decide (p = 0) then Z.of_nat index + 1 else p
  | None => Z.of_nat index + 1
  end.

Definition badges (requests : list ApprovalRequest) : list Z :=
  imap badge (pendingRequests requests).

(** [isMyRequest] of ApprovalQueue.tsx: by the name of the profile. *)
Definition isMyRequest
    (user : option uuid) (profile : option profiles.row) (req : ApprovalRequest)
  : bool :=
  match user, profiles_name req, profile with
  | Some _, Some n, Some p => bool_decide (n = profiles.name p)
  | _, _, _ => false
  end.

(** [isMyRequest] of the other version of the component: by the
    identifier of the submitter. *)
Definition isMyRequest_by_id (user : option uuid) (req : ApprovalRequest) : bool :=
  match user with
  | Some u => bool_decide (user_id (request req) = u)
  | None => false
  end.

(** [canApprove], under which a pending card shows the two decision
    buttons. *)
Definition canApprove (profile : option profiles.row) : bool :=
  match profile with
  | Some p => bool_decide (profiles.role p = "approver"%string
                           ∨ profiles.role p = "admin"%string)
  | None => false
  end.
End ApprovalQueue.

(** [handleApprovalAction] of the version of the component that has a
    comment box: the comment typed, or the default text when it is
    empty. *)
Definition handleApprovalAction_with_comment
    (user : option uuid) (profile : option profiles.row)
    (requestId : uuid) (action : decision) (comment : string)
    (now_update now_insert : timestamptz) (gen_random_uuid : uuid)
    (db : database) : database * toast :=
  match user, profile with
  | Some u, Some p =>
      if decide (profiles.role p ≠ "approver"%string
                 ∧ profiles.role p ≠ "admin"%string)
      then (db, toast_no_permission)
      else
        let db1 :=
          fst (update_request (Some u) now_update (status_update action)
                              requestId db) in
        match insert_action (Some u) now_insert gen_random_uuid
                (mk_action (Some requestId) (Some u)
                   (Some (decision_text action))
                   (if decide (comment = ""%string)
                    then act_comment (action_record requestId u action)
                    else Some comment)) db1 with
        | ok db2 => (db2, toast_decided action)
        | error _ => (db1, toast_processing_failed)
        end
  | _, _ => (db, toast_no_permission)
  end.

(** ** The trigger of the earlier migrations

    The body of [update_queue_positions] as the first two migrations
    declare it: no guard, and every pending row written. *)
Definition ranked_requests_v1 (tbl : list row) : list (uuid * Z) :=
  imap (λ i c, (c.1, Z.of_nat (S i)))
       (merge_sort created_le
          ((λ r, (id r, created_at r))
           <$> filter (λ r, status r = "pending"%string) tbl)).

Definition rank_all (now : timestamptz) (tbl : list row) : list row :=
  (λ r, match new_position (ranked_requests_v1 tbl) (id r) with
        | Some p => update_updated_at_column now (set_queue_position (Some p) r)
        | None => r
        end) <$> tbl.

(** ** More vocabulary *)

(** The actions reference requests of the table (the FOREIGN KEY of
    [approval_actions.request_id]). *)
Definition references_hold (db : database) : Prop :=
  Forall (λ a, approval_actions.request_id a ∈ id <$> db_requests db)
         (db_actions db).

Global Instance references_hold_dec db : Decision (references_hold db).
Proof. unfold references_hold. apply _. Defined.

(** The three values the handlers write into [status]. *)
Definition known_status (s : string) : Prop :=
  s = "pending"%string ∨ s = "approved"%string ∨ s = "rejected"%string.

Definition statuses_known (tbl : list row) : Prop :=
  Forall (λ r, known_status (status r)) tbl.

Global Instance statuses_known_dec tbl : Decision (statuses_known tbl).
Proof. unfold statuses_known, known_status. apply _. Defined.

(** Two rows that differ at most in [queue_position] and [updated_at], the
    two columns the maintainer writes. *)
Definition same_but_position (r r' : row) : Prop :=
  id r' = id r ∧ user_id r' = user_id r ∧ title r' = title r
  ∧ content r' = content r ∧ department r' = department r
  ∧ status r' = status r ∧ created_at r' = created_at r.

(** ** Vocabulary of the statements *)

(** [id] is the PRIMARY KEY of [approval_requests]. *)
Definition primary_key (tbl : list row) : Prop := NoDup (id <$> tbl).

(** The number ROW_NUMBER() OVER (ORDER BY created_at) gives a row among
    the rows in scope. *)
Definition row_number (ev : tg_event) (NEW : row) (tbl : list row) (r : row)
  : option Z :=
  new_position (ranked_requests ev NEW tbl) (id r).

Global Instance primary_key_dec tbl : Decision (primary_key tbl).
Proof. unfold primary_key. apply _. Defined.

(** Invariant I2 of the specification: a position is defined exactly for
    the pending requests. *)
Definition position_iff_pending (tbl : list row) : Prop :=
  Forall (λ r, is_Some (queue_position r) ↔ status r = "pending"%string) tbl.

(** One half of it: every pending request has a position. *)
Definition pending_have_position (tbl : list row) : Prop :=
  Forall (λ r, status r = "pending"%string → is_Some (queue_position r)) tbl.

Global Instance position_iff_pending_dec tbl : Decision (position_iff_pending tbl).
Proof. unfold position_iff_pending. apply _. Defined.

Global Instance pending_have_position_dec tbl :
  Decision (pending_have_position tbl).
Proof. unfold pending_have_position. apply _. Defined.

(** The positions of the pending requests, in table order. *)
Definition pending_positions (tbl : list row) : list (option Z) :=
  queue_position <$> filter (λ r, status r = "pending"%string) tbl.

(** Invariant I1 of the specification, density: the positions of the
    pending requests are 1..n, each once. *)
Definition dense (tbl : list row) : Prop :=
  pending_positions tbl
  ≡ₚ Some <$> seqZ 1 (Z.of_nat (length (pending_positions tbl))).

Global Instance dense_dec tbl : Decision (dense tbl).
Proof. unfold dense. apply _. Defined.

(** Invariant I1, order: an earlier pending request has a smaller
    position. *)
Definition ordered (tbl : list row) : Prop :=
  ∀ a b, a ∈ tbl → b ∈ tbl →
    status a = "pending"%string → status b = "pending"%string →
    created_at a < created_at b →
    ∃ pa pb, queue_position a = Some pa ∧ queue_position b = Some pb ∧ pa < pb.

(** Every pending request holds its rank by creation time: 1 + the number
    of pending requests created strictly earlier. *)
Definition at_rank (tbl : list row) : Prop :=
  Forall (λ r, status r = "pending"%string →
               queue_position r = Some (count_earlier r tbl + 1)) tbl.

Global Instance at_rank_dec tbl : Decision (at_rank tbl).
Proof. unfold at_rank. apply _. Defined.

(** No two pending requests share a creation time. *)
Definition distinct_times (tbl : list row) : Prop :=
  Forall (λ r, Forall (λ r', status r = "pending"%string →
                             status r' = "pending"%string →
                             created_at r = created_at r' → id r = id r')
                      tbl) tbl.

Global Instance distinct_times_dec tbl : Decision (distinct_times tbl).
Proof. unfold distinct_times. apply _. Defined.

(** The pending requests behind the pending request an update names: those
    created after it. *)
Definition behind (NEW : row) (tbl : list row) (r : row) : Prop :=
  status r = "pending"%string ∧ id r ≠ id NEW
  ∧ Exists (λ o, id o = id NEW ∧ status o = "pending"%string
                 ∧ created_at o < created_at r) tbl.

Global Instance behind_dec NEW tbl r : Decision (behind NEW tbl r).
Proof. unfold behind. apply _. Defined.

(** Whether an update ran the recompute of the maintainer. *)
Definition recompute_ran (out : database * option maintainer_run) : bool :=
  from_option run_recomputed false out.2.

(** ** Scenarios *)

Module Scenario.
Definition alice : profiles.row :=
  profiles.mk "alice" "Alice" "Sales" "employee" 0 0.
Definition bob : profiles.row :=
  profiles.mk "bob" "Bob" "Sales" "employee" 0 0.
Definition carol : profiles.row :=
  profiles.mk "carol" "Carol" "Finance" "approver" 0 0.

Definition empty : database := mk_database [alice; bob; carol] [] [].

Definition submit (who : profiles.row) (t : string) (now : timestamptz)
    (i : uuid) (db : database) : database :=
  fst (handleSubmit (Some (profiles.id who)) (Some who) t "" now i db).

(** Scenario A: three submissions at times 0, 1 and 2. *)
Definition three : database :=
  submit alice "R3" 2 "r3" (submit bob "R2" 1 "r2" (submit alice "R1" 0 "r1" empty)).

(** A fourth request, about to be inserted at time 3. *)
Definition probe : row :=
  mk "r4" "bob" "R4" (Some "") "Sales" "pending" None 3 3.

(** Scenario B: the approver decides the second request. *)
Definition decided : database :=
  (handleApprovalAction (Some "carol") (Some carol) "r2" approved 10 11 "a1"
                        three).1.

(** The approver decides the same request again, the other way. *)
Definition decided_again : database * toast :=
  handleApprovalAction (Some "carol") (Some carol) "r2" rejected 20 21 "a2"
                       decided.

(** A queue of one request, and a second request that reaches the store with
    an earlier creation time: sent with an explicit [created_at], or by a
    transaction that began before the one of the first request. *)
Definition one : database := submit alice "R1" 5 "r1" empty.

Definition backdated : insert_values :=
  mk_insert None (Some "bob") (Some "R2") None (Some "Sales") None None
            (Some 3) None.

(** The same queue after a second submission whose transaction carries the
    timestamp of the first. *)
Definition tied : database := submit bob "R2" 5 "r2" one.

(** Scenario A with its second request deleted. *)
Definition deleted : database := delete_request "r2" three.

Definition positions (db : database) : list (uuid * string * option Z) :=
  (λ r, (id r, status r, queue_position r)) <$> db_requests db.
End Scenario.

(** Decidable facts about concrete tables are settled by evaluation. *)
Ltac by_computation := apply (bool_decide_unpack _); vm_compute; exact I.

(** Scenario A of the specification: the three requests get positions 1, 2
    and 3. *)
Example scenario_A :
  Scenario.positions Scenario.three
  = [("r1", "pending", Some 1); ("r2", "pending", Some 2);
     ("r3", "pending", Some 3)]%string
  ∧ dense (db_requests Scenario.three).
Proof. split; [reflexivity | by_computation]. Qed.

(** Scenario B: the first request stays at 1, the third moves from 3 to 2 and
    one approval action records the decision. The decided request keeps
    position 2. *)
Example scenario_B :
  Scenario.positions Scenario.decided
  = [("r1", "pending", Some 1); ("r2", "approved", Some 2);
     ("r3", "pending", Some 2)]%string
  ∧ db_actions Scenario.decided
    = [approval_actions.mk "a1" "r2" "carol" "approved"
         (act_comment (action_record "r2" "carol" approved)) 11]%string
  ∧ dense (db_requests Scenario.decided).
Proof. split_and!; [reflexivity | reflexivity | by_computation]. Qed.

(** ** The primary key and what the inner UPDATE leaves alone *)

Implicit Types (tbl : list row) (r NEW OLD : row) (rk : list (uuid * Z)).
Implicit Types (now : timestamptz) (ev : tg_event) (db : database).
Implicit Types (uid : option uuid) (requestId : uuid) (u : update_set).

Lemma filter_fmap {A B} (P : B → Prop) `{!∀ x, Decision (P x)}
    (f : A → B) (l : list A) :
  filter P (f <$> l) = f <$> filter (P ∘ f) l.
Proof.
  induction l as [|x l IH]; [done|]. csimpl.
  rewrite !filter_cons. simpl. case_decide; csimpl; by rewrite IH.
Qed.

Lemma filter_iff_elem_of {A} (P Q : A → Prop)
    `{!∀ x, Decision (P x), !∀ x, Decision (Q x)} (l : list A) :
  (∀ x, x ∈ l → (P x ↔ Q x)) → filter P l = filter Q l.
Proof.
  induction l as [|x l IH]; intros Hl; [done|].
  rewrite !filter_cons, IH by (intros y Hy; apply Hl; by right).
  apply decide_ext, Hl. by left.
Qed.

Lemma filter_none {A} (P : A → Prop) `{!∀ x, Decision (P x)} (l : list A) :
  (∀ x, x ∈ l → ¬ P x) → filter P l = [].
Proof.
  induction l as [|x l IH]; intros Hl; [done|].
  rewrite filter_cons_False by (apply Hl; left).
  apply IH. intros y Hy. apply Hl. by right.
Qed.

Lemma reposition_id now rk r : id (reposition now rk r) = id r.
Proof. unfold reposition. by repeat case_match. Qed.

Lemma reposition_status now rk r : status (reposition now rk r) = status r.
Proof. unfold reposition. by repeat case_match. Qed.

Lemma reposition_created_at now rk r :
  created_at (reposition now rk r) = created_at r.
Proof. unfold reposition. by repeat case_match. Qed.

Lemma count_earlier_reposition NEW now rk tbl :
  count_earlier NEW (reposition now rk <$> tbl) = count_earlier NEW tbl.
Proof.
  unfold count_earlier. rewrite filter_fmap, length_fmap. do 2 f_equal.
  apply list_filter_iff. intros r. cbn.
  by rewrite reposition_status, reposition_created_at.
Qed.

Lemma candidates_reposition ev NEW now rk tbl :
  candidates ev NEW (reposition now rk <$> tbl) = candidates ev NEW tbl.
Proof.
  unfold candidates. rewrite filter_fmap, <-list_fmap_compose.
  rewrite (list_filter_iff (in_scope ev NEW ∘ reposition now rk) (in_scope ev NEW)).
  - apply list_fmap_ext. intros _ r _. cbn.
    by rewrite reposition_id, reposition_created_at.
  - intros r. unfold in_scope. cbn. by rewrite reposition_status, reposition_id.
Qed.

Lemma ranked_requests_reposition ev NEW now rk tbl :
  ranked_requests ev NEW (reposition now rk <$> tbl) = ranked_requests ev NEW tbl.
Proof. unfold ranked_requests. by rewrite candidates_reposition. Qed.

(** A row the join does not reach, or whose position already is the new
    one, is not written. *)
Lemma reposition_skip now rk r :
  ¬ needs_rewrite rk r → reposition now rk r = r.
Proof.
  unfold needs_rewrite, reposition. intros H.
  destruct (new_position rk (id r)) as [p|]; [|done].
  case_decide; [done|]. destruct H. eauto.
Qed.

(** After the inner UPDATE every row the join reaches holds its new
    position. *)
Lemma reposition_position now rk r p :
  new_position rk (id r) = Some p → queue_position (reposition now rk r) = Some p.
Proof. unfold reposition. intros ->. by case_decide. Qed.

(** ** The join against [ranked_requests] *)

Lemma new_position_None rk (i : uuid) : i ∉ rk.*1 → new_position rk i = None.
Proof.
  induction rk as [|[j p] rk IH]; [done|]. csimpl.
  rewrite not_elem_of_cons. intros [Hne Hnot].
  case_decide; [congruence|]. by apply IH.
Qed.

(** Numbering a list without repeated identifiers from [k + 1] gives the
    entry at index [i] the number [k + i + 1]. *)
Lemma new_position_numbered (l : list (uuid * timestamptz)) (k i : nat) c :
  NoDup l.*1 → l !! i = Some c →
  new_position (imap (λ j c, (c.1, Z.of_nat (S (k + j)))) l) c.1
  = Some (Z.of_nat (S (k + i))).
Proof.
  revert k i. induction l as [|d l IH]; intros k i Hnd Hi; [done|].
  rewrite imap_cons. csimpl in Hnd. apply NoDup_cons in Hnd as [Hd Hnd].
  destruct i as [|i]; simpl in Hi.
  - simplify_eq. simpl. rewrite decide_True by done.
    by rewrite Nat.add_0_r.
  - simpl. rewrite decide_False.
    + rewrite (imap_ext _ (λ j c, (c.1, Z.of_nat (S (S k + j))))).
      * rewrite (IH (S k) i Hnd Hi). do 3 f_equal. lia.
      * intros j x _. simpl. do 3 f_equal. lia.
    + intros E. apply Hd. rewrite E.
      apply list_elem_of_fmap_2. by eapply list_elem_of_lookup_2.
Qed.

Lemma candidates_ids ev NEW tbl :
  (candidates ev NEW tbl).*1 = id <$> filter (in_scope ev NEW) tbl.
Proof.
  unfold candidates. rewrite <-list_fmap_compose.
  by apply list_fmap_ext.
Qed.

Lemma candidates_NoDup ev NEW tbl :
  primary_key tbl → NoDup (candidates ev NEW tbl).*1.
Proof.
  intros Hpk. rewrite candidates_ids.
  eapply sublist_NoDup; [exact Hpk|].
  apply fmap_sublist, sublist_filter.
Qed.

Lemma sorted_candidates_NoDup ev NEW tbl :
  primary_key tbl → NoDup (merge_sort created_le (candidates ev NEW tbl)).*1.
Proof.
  intros Hpk. rewrite merge_sort_Permutation. by apply candidates_NoDup.
Qed.

Lemma ranked_requests_ids ev NEW tbl :
  (ranked_requests ev NEW tbl).*1
  = (merge_sort created_le (candidates ev NEW tbl)).*1.
Proof.
  unfold ranked_requests. rewrite fmap_imap.
  rewrite (imap_ext _ (λ _ c, c.1)) by done.
  apply imap_const.
Qed.

(** With a primary key, two rows of the table with one identifier are one
    row. *)
Lemma primary_key_inj tbl r r' :
  primary_key tbl → r ∈ tbl → r' ∈ tbl → id r = id r' → r = r'.
Proof.
  intros Hpk [i Hi]%list_elem_of_lookup [j Hj]%list_elem_of_lookup E.
  assert (i = j) as ->; [|congruence].
  eapply (NoDup_lookup _ _ _ _ Hpk); rewrite list_lookup_fmap.
  - by rewrite Hi.
  - rewrite Hj. simpl. by rewrite E.
Qed.

(** A row in scope joins, at the place the sort gives it. *)
Lemma ranked_in_scope ev NEW tbl r :
  primary_key tbl → r ∈ tbl → in_scope ev NEW r →
  ∃ i : nat,
    merge_sort created_le (candidates ev NEW tbl) !! i
    = Some (id r, created_at r)
    ∧ new_position (ranked_requests ev NEW tbl) (id r) = Some (Z.of_nat (S i)).
Proof.
  intros Hpk Hr Hs.
  assert ((id r, created_at r) ∈ merge_sort created_le (candidates ev NEW tbl))
    as [i Hi]%list_elem_of_lookup.
  { rewrite merge_sort_Permutation. unfold candidates.
    apply (list_elem_of_fmap_2 (λ r, (id r, created_at r))).
    by apply list_elem_of_filter. }
  exists i. split; [done|].
  apply (new_position_numbered _ 0 i (id r, created_at r));
    [by apply sorted_candidates_NoDup | done].
Qed.

(** A row out of scope does not join. *)
Lemma ranked_out_of_scope ev NEW tbl r :
  primary_key tbl → r ∈ tbl → ¬ in_scope ev NEW r →
  new_position (ranked_requests ev NEW tbl) (id r) = None.
Proof.
  intros Hpk Hr Hs. apply new_position_None.
  rewrite ranked_requests_ids, merge_sort_Permutation, candidates_ids.
  intros (r' & E & [Hs' Hr']%list_elem_of_filter)%list_elem_of_fmap.
  by rewrite (primary_key_inj tbl r r' Hpk Hr Hr' E) in Hs.
Qed.

(** ** Row numbers and creation times *)

(** In a sorted list, the entries strictly earlier than an entry whose
    creation time occurs once are the entries in front of it. *)
Lemma sorted_count_earlier (l : list (uuid * timestamptz)) (i : nat) c :
  StronglySorted created_le l → l !! i = Some c →
  (∀ j d, l !! j = Some d → d.2 = c.2 → j = i) →
  length (filter (λ d, d.2 < c.2) l) = i.
Proof.
  intros Hs. revert i. induction Hs as [|x l Hs IH Hall]; intros i Hi Huniq.
  { done. }
  rewrite filter_cons. destruct i as [|i]; simpl in Hi.
  - simplify_eq. rewrite decide_False by lia.
    rewrite filter_none; [done|].
    intros d Hd. eapply Forall_forall in Hall; [|exact Hd].
    unfold created_le in Hall. lia.
  - assert (created_le x c) as Hle.
    { eapply Forall_forall; [exact Hall|]. by eapply list_elem_of_lookup_2. }
    assert (x.2 ≠ c.2) as Hne.
    { intros E. by specialize (Huniq 0%nat x eq_refl E). }
    unfold created_le in Hle. rewrite decide_True by lia. simpl. f_equal.
    apply IH; [done|]. intros j d Hj E.
    specialize (Huniq (S j) d Hj E). lia.
Qed.

(** The place of a row in the sorted candidates, when no other row in scope
    has its creation time: the number of rows in scope created strictly
    earlier. *)
Lemma ranked_index_counts_earlier ev NEW tbl r (i : nat) :
  primary_key tbl →
  (∀ r', r' ∈ tbl → in_scope ev NEW r' →
         created_at r' = created_at r → id r' = id r) →
  merge_sort created_le (candidates ev NEW tbl) !! i
  = Some (id r, created_at r) →
  length (filter (λ x, in_scope ev NEW x ∧ created_at x < created_at r) tbl)
  = i.
Proof.
  intros Hpk Huniq Hi.
  assert (length (filter (λ d : uuid * timestamptz, d.2 < created_at r)
                         (merge_sort created_le (candidates ev NEW tbl))) = i)
    as <-.
  { apply (sorted_count_earlier _ i (id r, created_at r)); [|done|].
    - apply StronglySorted_merge_sort; apply _.
    - intros j d Hj E. simpl in E.
      assert (d ∈ candidates ev NEW tbl) as Hd.
      { rewrite <-(merge_sort_Permutation created_le).
        by eapply list_elem_of_lookup_2. }
      apply list_elem_of_fmap in Hd as (r' & -> & [Hs' Hr']%list_elem_of_filter).
      simpl in E. specialize (Huniq r' Hr' Hs' E).
      eapply (NoDup_lookup _ _ _ _ (sorted_candidates_NoDup ev NEW tbl Hpk));
        rewrite list_lookup_fmap.
      + by rewrite Hj.
      + rewrite Hi. simpl. by rewrite Huniq. }
  rewrite (merge_sort_Permutation created_le). unfold candidates.
  rewrite filter_fmap, length_fmap, list_filter_filter. f_equal.
  apply list_filter_iff. intros x. simpl. tauto.
Qed.

(** X24. Where no other row in scope has the creation time of [r], the
    row number of [r] is 1 + the number of rows in scope created strictly
    earlier: its rank by creation time. *)
Lemma row_number_counts_earlier ev NEW tbl r :
  primary_key tbl → r ∈ tbl → in_scope ev NEW r →
  (∀ r', r' ∈ tbl → in_scope ev NEW r' →
         created_at r' = created_at r → id r' = id r) →
  row_number ev NEW tbl r
  = Some (1 + Z.of_nat (length (filter
              (λ x, in_scope ev NEW x ∧ created_at x < created_at r) tbl))).
Proof.
  intros Hpk Hr Hs Huniq. unfold row_number.
  destruct (ranked_in_scope ev NEW tbl r Hpk Hr Hs) as (i & Hi & ->).
  rewrite (ranked_index_counts_earlier ev NEW tbl r i Hpk Huniq Hi).
  f_equal. lia.
Qed.

(** ** Reading the statements *)

Lemma find_row_Some requestId tbl r :
  find_row requestId tbl = Some r → r ∈ tbl ∧ id r = requestId.
Proof.
  unfold find_row. intros ([i r'] & Hf & ->)%fmap_Some.
  apply list_find_Some in Hf as (Hi & Hid & _).
  split; [by eapply list_elem_of_lookup_2 | done].
Qed.

Lemma apply_set_id u r : id (apply_set u r) = id r.
Proof. unfold apply_set. by destruct u as [[?|] [?|] [?|] [?|]]. Qed.

Lemma apply_set_status u r :
  status (apply_set u r) = default (status r) (upd_status u).
Proof. unfold apply_set. by destruct u as [[?|] [?|] [?|] [?|]]. Qed.

Lemma apply_set_queue_position u r :
  queue_position (apply_set u r)
  = default (queue_position r) (upd_queue_position u).
Proof. unfold apply_set. by destruct u as [[?|] [?|] [?|] [?|]]. Qed.

(** The trigger function returns the row it was given, but for its
    position. *)
Lemma run_new_id ev NEW now tbl :
  id (run_new (update_queue_positions ev NEW now tbl)) = id NEW.
Proof. unfold update_queue_positions. by repeat case_decide. Qed.

Lemma run_new_created_at ev NEW now tbl :
  created_at (run_new (update_queue_positions ev NEW now tbl)) = created_at NEW.
Proof. unfold update_queue_positions. by repeat case_decide. Qed.

Lemma run_table_cases ev NEW now tbl :
  run_table (update_queue_positions ev NEW now tbl) = tbl
  ∨ run_table (update_queue_positions ev NEW now tbl)
    = reposition now (ranked_requests ev NEW tbl) <$> tbl.
Proof. unfold update_queue_positions. case_decide; auto. Qed.

(** A row of the table after a replacement is the new row, or a row of the
    table before it with another identifier. *)
Lemma elem_of_replace_row requestId NEW tbl r' :
  r' ∈ replace_row requestId NEW tbl →
  (r' = NEW ∧ requestId ∈ id <$> tbl) ∨ (r' ∈ tbl ∧ id r' ≠ requestId).
Proof.
  unfold replace_row. intros (r & -> & Hr)%list_elem_of_fmap.
  case_decide as E; [left|right; done].
  split; [done|]. rewrite <-E. by apply list_elem_of_fmap_2.
Qed.

(** ** The position of a new request *)

(** The store accepts an insert that names submitter, title and department,
    is sent by the submitter and brings a fresh identifier. *)
Lemma insert_request_accepts
    now (gen_random_uuid : uuid) (v : insert_values) db (usr : uuid) :
  ins_user_id v = Some usr →
  is_Some (ins_title v) → is_Some (ins_department v) →
  default gen_random_uuid (ins_id v) ∉ id <$> db_requests db →
  ∃ db', insert_request (Some usr) now gen_random_uuid v db = ok db'.
Proof.
  intros Hu [t Ht] [d Hd] Hfresh. unfold insert_request.
  rewrite Hu, Ht, Hd.
  rewrite decide_True by (by split).
  rewrite decide_False by done. eauto.
Qed.

(** C5. An INSERT of a request with status 'pending' that the store accepts
    appends a row whose [queue_position] is 1 + the number of pending rows
    of the table it was inserted into whose [created_at] is strictly
    earlier; the count is taken in the BEFORE INSERT trigger, over a table
    that does not hold the new row yet. *)
Theorem insert_assigns_count_plus_one
    uid now (gen_random_uuid : uuid) (v : insert_values) db db' :
  insert_request uid now gen_random_uuid v db = ok db' →
  default "pending"%string (ins_status v) = "pending"%string →
  ∃ NEW,
    last (db_requests db') = Some NEW
    ∧ id NEW = default gen_random_uuid (ins_id v)
    ∧ (id NEW ∉ id <$> db_requests db)
    ∧ created_at NEW = default now (ins_created_at v)
    ∧ queue_position NEW
      = Some (1 + Z.of_nat (length (filter
                 (λ r, status r = "pending"%string
                       ∧ created_at r < created_at NEW) (db_requests db)))).
Proof.
  unfold insert_request. intros Hins Hst.
  case_decide as Hrls; [|done].
  destruct (ins_user_id v) as [usr|]; [|done].
  destruct (ins_title v) as [t|]; [|done].
  destruct (ins_department v) as [d|]; [|done].
  case_decide as Hpk; [done|].
  injection Hins as <-. simpl.
  eexists. split; [apply last_snoc|].
  rewrite run_new_id, run_new_created_at. simpl.
  split_and!; [done..|].
  unfold update_queue_positions.
  rewrite decide_True by (simpl; done). simpl.
  rewrite decide_True by done. simpl.
  rewrite count_earlier_reposition. unfold count_earlier. simpl.
  f_equal. lia.
Qed.

Lemma insert_assigns_count_plus_one_witness :
  insert_request (Some "alice"%string) 2 "r3"
    (mk_insert None (Some "alice") (Some "R3") (Some "") (Some "Sales")
               (Some "pending") None None None)%string
    (Scenario.submit Scenario.bob "R2" 1 "r2"
       (Scenario.submit Scenario.alice "R1" 0 "r1" Scenario.empty))
  = ok Scenario.three
  ∧ ∃ NEW,
      last (db_requests Scenario.three) = Some NEW
      ∧ id NEW = "r3"%string
      ∧ queue_position NEW = Some 3.
Proof.
  split; [reflexivity|].
  destruct (insert_assigns_count_plus_one (Some "alice"%string) 2 "r3"
    (mk_insert None (Some "alice") (Some "R3") (Some "") (Some "Sales")
               (Some "pending") None None None)%string
    (Scenario.submit Scenario.bob "R2" 1 "r2"
       (Scenario.submit Scenario.alice "R1" 0 "r1" Scenario.empty))
    Scenario.three) as (NEW & Hlast & Hid & _ & _ & Hpos);
    [reflexivity | reflexivity |].
  exists NEW. split; [exact Hlast|]. split; [exact Hid|].
  vm_compute in Hlast. injection Hlast as <-. reflexivity.
Defined.

(** ** Updates that leave the queue alone *)

Lemma replace_row_positions requestId OLD NEW tbl :
  primary_key tbl → OLD ∈ tbl → id OLD = requestId →
  queue_position NEW = queue_position OLD →
  queue_position <$> replace_row requestId NEW tbl = queue_position <$> tbl.
Proof.
  intros Hpk Hold Hid Hpos. unfold replace_row.
  rewrite <-list_fmap_compose. apply list_fmap_ext. intros i r Hr. simpl.
  case_decide as E; [|done].
  rewrite Hpos. f_equal. symmetry.
  eapply primary_key_inj; eauto using list_elem_of_lookup_2. congruence.
Qed.

(** C7. An UPDATE of a request whose SET list does not name
    [queue_position] and leaves [status] as it is (title and content only,
    or [status] set to the value it has) runs no recompute, and every
    [queue_position] of the table is what it was. *)
Theorem unrelated_update_keeps_queue uid now u requestId db :
  primary_key (db_requests db) →
  upd_queue_position u = None →
  (∀ s OLD, upd_status u = Some s →
            find_row requestId (db_requests db) = Some OLD → s = status OLD) →
  recompute_ran (update_request uid now u requestId db) = false
  ∧ queue_position <$> db_requests (update_request uid now u requestId db).1
    = queue_position <$> db_requests db.
Proof.
  intros Hpk Hq Hst. unfold recompute_ran, update_request.
  destruct (find_row requestId (db_requests db)) as [OLD|] eqn:Hfind; [|done].
  apply find_row_Some in Hfind as Hold. destruct Hold as [Hold Hid].
  case_decide; [|done].
  assert (queue_position (update_updated_at_column now (apply_set u OLD))
          = queue_position OLD) as Hpos.
  { simpl. by rewrite apply_set_queue_position, Hq. }
  destruct (upd_status u) as [s|] eqn:Hs; simpl.
  - assert (status (update_updated_at_column now (apply_set u OLD)) = status OLD)
      as Hstat.
    { simpl. rewrite apply_set_status, Hs. simpl. by apply Hst. }
    unfold update_queue_positions. rewrite decide_False.
    + simpl. split; [done|]. by eapply replace_row_positions.
    + simpl. rewrite apply_set_status, apply_set_queue_position, Hq, Hs. simpl.
      rewrite (Hst s OLD eq_refl eq_refl). tauto.
  - split; [done|]. by eapply replace_row_positions.
Qed.

Lemma unrelated_update_keeps_queue_witness :
  primary_key (db_requests Scenario.three)
  ∧ recompute_ran
      (update_request (Some "bob"%string) 5
         (mk_update (Some "R2, again"%string) (Some None) None None)
         "r2" Scenario.three) = false
  ∧ queue_position <$> db_requests
      (update_request (Some "bob"%string) 5
         (mk_update (Some "R2, again"%string) (Some None) None None)
         "r2" Scenario.three).1
    = [Some 1; Some 2; Some 3].
Proof.
  assert (primary_key (db_requests Scenario.three)) as Hpk.
  { by_computation. }
  split; [exact Hpk|].
  apply (unrelated_update_keeps_queue (Some "bob"%string) 5
           (mk_update (Some "R2, again"%string) (Some None) None None)
           "r2" Scenario.three Hpk eq_refl).
  intros s OLD Hs. discriminate Hs.
Defined.

(** ** What a rewrite does to the rewritten row *)

(** A row whose position the inner UPDATE changes went through
    [update_updated_at_column]. *)
Lemma reposition_touches now rk r :
  queue_position (reposition now rk r) ≠ queue_position r →
  updated_at (reposition now rk r) = now.
Proof.
  unfold reposition. destruct (new_position rk (id r)); [|done].
  by case_decide.
Qed.

(** A row the inner UPDATE leaves with another position is one it wrote. *)
Lemma reposition_needs_rewrite now rk r :
  queue_position (reposition now rk r) ≠ queue_position r → needs_rewrite rk r.
Proof.
  intros Hpos. destruct (decide (needs_rewrite rk r)) as [|Hskip]; [done|].
  by rewrite (reposition_skip now rk r Hskip) in Hpos.
Qed.

(** C10. Whenever a run of the maintainer changes the [queue_position] of a
    request of the table, on an insert as on an update, the [updated_at] of
    that request is the time of the statement and the request is among the
    rows the run rewrote. So after an UPDATE of one request, and after an
    accepted INSERT, every other request whose position differs from
    before carries the time of the statement as [updated_at]. *)
Theorem reranked_request_is_touched now db r r' :
  primary_key (db_requests db) →
  r ∈ db_requests db →
  id r' = id r →
  queue_position r' ≠ queue_position r →
  (∀ ev NEW,
     r' ∈ run_table (update_queue_positions ev NEW now (db_requests db)) →
     updated_at r' = now
     ∧ id r ∈ run_rewritten
                (update_queue_positions ev NEW now (db_requests db)))
  ∧ (∀ uid u requestId,
       id r ≠ requestId →
       r' ∈ db_requests (update_request uid now u requestId db).1 →
       updated_at r' = now)
  ∧ (∀ uid (gen_random_uuid : uuid) v db',
       insert_request uid now gen_random_uuid v db = ok db' →
       r' ∈ db_requests db' →
       updated_at r' = now).
Proof.
  intros Hpk Hr Hid Hpos.
  assert (r' ∉ db_requests db) as Hnew.
  { intros Hin. destruct Hpos. f_equal. by eapply primary_key_inj. }
  assert (∀ ev NEW,
            r' ∈ run_table (update_queue_positions ev NEW now (db_requests db)) →
            updated_at r' = now
            ∧ id r ∈ run_rewritten
                       (update_queue_positions ev NEW now (db_requests db)))
    as Hrun.
  { intros ev NEW. unfold update_queue_positions.
    case_decide; simpl; [|done].
    intros (r0 & -> & Hr0)%list_elem_of_fmap.
    rewrite reposition_id in Hid.
    rewrite (primary_key_inj _ r0 r Hpk Hr0 Hr Hid) in Hpos |- *.
    split; [by apply reposition_touches|].
    apply list_elem_of_fmap_2, list_elem_of_filter.
    split; [by eapply reposition_needs_rewrite | done]. }
  split_and!.
  - exact Hrun.
  - intros uid u requestId Hne Hr'. unfold update_request in Hr'.
    destruct (find_row requestId (db_requests db)) as [OLD|] eqn:Hfind;
      [|done].
    apply find_row_Some in Hfind as [_ Hold].
    case_decide; [|done].
    destruct (upd_status u); simpl in Hr';
      apply elem_of_replace_row in Hr' as [[-> _]|[Hin _]].
    + destruct Hne. rewrite <-Hid, run_new_id. simpl. by rewrite apply_set_id.
    + by apply (Hrun (TG_UPDATE OLD)
                  (update_updated_at_column now (apply_set u OLD))).
    + destruct Hne. rewrite <-Hid. simpl. by rewrite apply_set_id.
    + done.
  - intros uid g v db' Hins Hr'. unfold insert_request in Hins.
    case_decide as Hrls; [|done].
    destruct (ins_user_id v) as [usr|]; [|done].
    destruct (ins_title v) as [t|]; [|done].
    destruct (ins_department v) as [d|]; [|done].
    case_decide as Hfresh; [done|].
    injection Hins as <-. simpl in Hr'.
    apply elem_of_app in Hr' as [Hr'|Hr'].
    + by eapply Hrun.
    + apply list_elem_of_singleton in Hr' as ->.
      destruct Hfresh. rewrite run_new_id in Hid. simpl in *.
      rewrite Hid. by apply list_elem_of_fmap_2.
Qed.

Lemma reranked_request_is_touched_witness :
  primary_key (db_requests Scenario.three)
  ∧ primary_key (db_requests Scenario.deleted)
  ∧ (∀ r', r' ∈ db_requests
                  (update_request (Some "carol"%string) 10
                     (status_update approved) "r2" Scenario.three).1 →
           id r' = "r3"%string → queue_position r' ≠ Some 3 →
           updated_at r' = 10)
  ∧ (∀ db' r',
       insert_request (Some "bob"%string) 10 "r4"
         (mk_insert None (Some "bob") (Some "R4") None (Some "Sales")
                    None None None None)%string
         Scenario.deleted = ok db' →
       r' ∈ db_requests db' →
       id r' = "r3"%string → queue_position r' ≠ Some 3 →
       updated_at r' = 10)
  ∧ (λ r, (id r, queue_position r, updated_at r))
    <$> db_requests
          (update_request (Some "carol"%string) 10
             (status_update approved) "r2" Scenario.three).1
    = [("r1", Some 1, 0); ("r2", Some 2, 10); ("r3", Some 2, 10)]%string
  ∧ insert_request (Some "bob"%string) 10 "r4"
      (mk_insert None (Some "bob") (Some "R4") None (Some "Sales")
                 None None None None)%string
      Scenario.deleted
    = ok (mk_database (db_profiles Scenario.deleted)
            [mk "r1" "alice" "R1" (Some "") "Sales" "pending" (Some 1) 0 0;
             mk "r3" "alice" "R3" (Some "") "Sales" "pending" (Some 2) 2 10;
             mk "r4" "bob" "R4" None "Sales" "pending" (Some 3) 10 10]%string
            (db_actions Scenario.deleted)).
Proof.
  assert (primary_key (db_requests Scenario.three)) as Hpk by by_computation.
  assert (primary_key (db_requests Scenario.deleted)) as Hpk' by by_computation.
  assert ((mk "r3" "alice" "R3" (Some "") "Sales" "pending" (Some 3) 2 2)%string
          ∈ db_requests Scenario.three) as Hr by by_computation.
  assert ((mk "r3" "alice" "R3" (Some "") "Sales" "pending" (Some 3) 2 2)%string
          ∈ db_requests Scenario.deleted) as Hr0 by by_computation.
  split_and!; [exact Hpk | exact Hpk' | | | reflexivity | reflexivity].
  - intros r' Hr' Hid Hpos.
    destruct (reranked_request_is_touched 10 Scenario.three _ r' Hpk Hr Hid Hpos)
      as (_ & Hupdate & _).
    apply (Hupdate (Some "carol"%string) (status_update approved) "r2"%string);
      [discriminate | exact Hr'].
  - intros db' r' Hins Hr' Hid Hpos.
    destruct (reranked_request_is_touched 10 Scenario.deleted _ r'
                Hpk' Hr0 Hid Hpos) as (_ & _ & Hinsert).
    by eapply Hinsert.
Defined.

(** ** Idempotence of the recompute *)

(** Where the guard of the inner UPDATE skips every row, the table stays
    as it is. *)
Lemma skipped_table_is_unchanged now rk tbl :
  (∀ r, r ∈ tbl → ¬ needs_rewrite rk r) →
  filter (needs_rewrite rk) tbl = [] ∧ reposition now rk <$> tbl = tbl.
Proof.
  intros Hskip. split.
  - by apply filter_none.
  - transitivity (Datatypes.id <$> tbl); [|apply list_fmap_id].
    apply list_fmap_ext.
    intros i r Hi. apply reposition_skip, Hskip.
    by eapply list_elem_of_lookup_2.
Qed.

(** ** The position of a decided request *)

Lemma decision_text_not_pending (a : decision) :
  decision_text a ≠ "pending"%string.
Proof. by destruct a. Qed.

(** After a recompute every row in scope has a position. *)
Lemma reposition_in_scope_is_Some ev NEW now tbl r :
  primary_key tbl → r ∈ tbl → in_scope ev NEW r →
  is_Some (queue_position (reposition now (ranked_requests ev NEW tbl) r)).
Proof.
  intros Hpk Hr Hs.
  destruct (ranked_in_scope ev NEW tbl r Hpk Hr Hs) as (i & _ & Hi).
  rewrite (reposition_position _ _ _ _ Hi). eauto.
Qed.

(** C2, as the code has it. When an UPDATE sets the status of a pending
    request to 'approved' or 'rejected', the request keeps the
    [queue_position] it had, and every request still pending has a
    position. *)
Theorem decided_request_keeps_position uid now (a : decision) requestId db OLD :
  primary_key (db_requests db) →
  find_row requestId (db_requests db) = Some OLD →
  status OLD = "pending"%string →
  can_update_request (db_profiles db) uid OLD →
  (∃ NEW,
     NEW ∈ db_requests (update_request uid now (status_update a) requestId db).1
     ∧ id NEW = requestId
     ∧ status NEW = decision_text a
     ∧ queue_position NEW = queue_position OLD)
  ∧ pending_have_position
      (db_requests (update_request uid now (status_update a) requestId db).1).
Proof.
  intros Hpk Hfind Hst Hcan. unfold update_request. rewrite Hfind.
  apply find_row_Some in Hfind as [Hold Hid].
  rewrite decide_True by done. simpl.
  set (NEW := update_updated_at_column now (apply_set (status_update a) OLD)).
  assert (maintainer_fires (TG_UPDATE OLD) NEW) as Hf.
  { simpl. rewrite Hst. split; [left|by left].
    apply not_eq_sym, decision_text_not_pending. }
  unfold update_queue_positions. rewrite (decide_True _ _ Hf).
  rewrite decide_False by apply decision_text_not_pending. simpl.
  split.
  - exists NEW. split_and!; try done.
    unfold replace_row. apply list_elem_of_fmap.
    exists (reposition now (ranked_requests (TG_UPDATE OLD) NEW (db_requests db)) OLD).
    rewrite reposition_id, decide_True by done. split; [done|].
    by apply list_elem_of_fmap_2.
  - apply Forall_forall.
    intros r [[-> _]|[Hr Hne]]%elem_of_replace_row Hp.
    + by destruct (decision_text_not_pending a).
    + apply list_elem_of_fmap in Hr as (r0 & -> & Hr0).
      rewrite reposition_status in Hp. rewrite reposition_id in Hne.
      apply reposition_in_scope_is_Some; [done..|].
      split; [done|]. right. simpl. by rewrite Hid.
Qed.

Lemma decided_request_keeps_position_witness :
  ∃ OLD,
    primary_key (db_requests Scenario.three)
    ∧ find_row "r2" (db_requests Scenario.three) = Some OLD
    ∧ status OLD = "pending"%string
    ∧ queue_position OLD = Some 2
    ∧ (∃ NEW,
         NEW ∈ db_requests
           (update_request (Some "carol"%string) 10 (status_update approved)
                           "r2" Scenario.three).1
         ∧ id NEW = "r2"%string
         ∧ status NEW = "approved"%string
         ∧ queue_position NEW = queue_position OLD)
    ∧ pending_have_position
        (db_requests
           (update_request (Some "carol"%string) 10 (status_update approved)
                           "r2" Scenario.three).1).
Proof.
  exists (mk "r2" "bob" "R2" (Some "") "Sales" "pending" (Some 2) 1 1)%string.
  assert (primary_key (db_requests Scenario.three)) as Hpk by by_computation.
  assert (can_update_request (db_profiles Scenario.three)
            (Some "carol"%string)
            (mk "r2" "bob" "R2" (Some "") "Sales" "pending" (Some 2) 1 1)%string)
    as Hcan by by_computation.
  destruct (decided_request_keeps_position (Some "carol"%string) 10 approved
              "r2" Scenario.three _ Hpk eq_refl eq_refl Hcan) as [Hnew Hall].
  split_and!; [exact Hpk | reflexivity | reflexivity | reflexivity
              | exact Hnew | exact Hall].
Defined.

(** C2, as stated, fails: in Scenario B invariant I2 holds before the
    decision, and after it the approved request still has position 2. *)
Lemma approved_request_has_position :
  position_iff_pending (db_requests Scenario.three)
  ∧ Scenario.positions Scenario.decided
    = [("r1", "pending", Some 1); ("r2", "approved", Some 2);
       ("r3", "pending", Some 2)]%string
  ∧ ¬ position_iff_pending (db_requests Scenario.decided).
Proof. split_and!; [by_computation | reflexivity | by_computation]. Qed.

(** ** A second decision *)

Lemma replace_row_ids requestId NEW tbl :
  id NEW = requestId → id <$> replace_row requestId NEW tbl = id <$> tbl.
Proof.
  intros Hid. unfold replace_row. rewrite <-list_fmap_compose.
  apply list_fmap_ext. intros _ r _. simpl. case_decide; congruence.
Qed.

Lemma elem_of_replace_row_2 requestId OLD NEW tbl :
  OLD ∈ tbl → id OLD = requestId → NEW ∈ replace_row requestId NEW tbl.
Proof.
  intros Hold Hid. unfold replace_row. apply list_elem_of_fmap.
  exists OLD. by rewrite decide_True.
Qed.

Lemma is_approver_intro (ps : list profiles.row) (p : profiles.row) :
  p ∈ ps →
  profiles.role p = "approver"%string ∨ profiles.role p = "admin"%string →
  is_approver ps (Some (profiles.id p)).
Proof. intros Hp Hrole. apply Exists_exists. eauto. Qed.

Lemma can_insert_action_intro (ps : list profiles.row) (usr : uuid) :
  is_approver ps (Some usr) → can_insert_action ps (Some usr) (Some usr).
Proof. intros Happ. by split_and!. Qed.

(** An update of the status between two values other than 'pending' does
    not wake the maintainer. *)
Lemma maintainer_sleeps_between_terminal_states OLD NEW now tbl :
  status OLD ≠ "pending"%string → status NEW ≠ "pending"%string →
  update_queue_positions (TG_UPDATE OLD) NEW now tbl = mk_run NEW tbl false [].
Proof.
  intros Ho Hn. unfold update_queue_positions.
  rewrite decide_False; [done|]. simpl. tauto.
Qed.

(** C3, as the code has it. A decision by an approver or admin on a request
    that is already approved or rejected is not refused: the handler
    reports success, the status is overwritten with the new decision,
    every [queue_position] stays and one more approval action is
    appended. *)
Theorem second_decision_goes_through
    (p : profiles.row) requestId (a : decision)
    (now_update now_insert : timestamptz) (gen_random_uuid : uuid) db OLD :
  primary_key (db_requests db) →
  find_row requestId (db_requests db) = Some OLD →
  status OLD ≠ "pending"%string →
  p ∈ db_profiles db →
  profiles.role p = "approver"%string ∨ profiles.role p = "admin"%string →
  gen_random_uuid ∉ approval_actions.id <$> db_actions db →
  ∃ db',
    handleApprovalAction (Some (profiles.id p)) (Some p) requestId a
                         now_update now_insert gen_random_uuid db
    = (db', toast_decided a)
    ∧ update_updated_at_column now_update (set_status (decision_text a) OLD)
      ∈ db_requests db'
    ∧ queue_position <$> db_requests db' = queue_position <$> db_requests db
    ∧ db_actions db'
      = db_actions db
        ++ [approval_actions.mk gen_random_uuid requestId (profiles.id p)
              (decision_text a)
              (act_comment (action_record requestId (profiles.id p) a))
              now_insert].
Proof.
  intros Hpk Hfind Hst Hp Hrole Hfresh.
  pose proof (is_approver_intro _ _ Hp Hrole) as Happ.
  apply find_row_Some in Hfind as Hold. destruct Hold as [Hold Hid].
  unfold handleApprovalAction.
  rewrite decide_False by (destruct Hrole as [-> | ->]; intros [? ?]; done).
  unfold update_request. rewrite Hfind.
  rewrite decide_True by (by right). simpl.
  rewrite maintainer_sleeps_between_terminal_states
    by (done || apply decision_text_not_pending).
  simpl. unfold insert_action. simpl.
  rewrite decide_True by (by apply can_insert_action_intro).
  rewrite decide_False by done.
  rewrite replace_row_ids by done.
  rewrite decide_True by (rewrite <-Hid; by apply list_elem_of_fmap_2).
  eexists. split; [reflexivity|]. simpl. split_and!.
  - by eapply elem_of_replace_row_2.
  - by eapply replace_row_positions.
  - done.
Qed.

Lemma second_decision_goes_through_witness :
  ∃ OLD db',
    primary_key (db_requests Scenario.decided)
    ∧ find_row "r2" (db_requests Scenario.decided) = Some OLD
    ∧ status OLD = "approved"%string
    ∧ Scenario.carol ∈ db_profiles Scenario.decided
    ∧ ("a2"%string ∉ approval_actions.id <$> db_actions Scenario.decided)
    ∧ Scenario.decided_again = (db', toast_decided rejected)
    ∧ length (db_actions db') = 2%nat.
Proof.
  assert (primary_key (db_requests Scenario.decided)) as Hpk by by_computation.
  assert (Scenario.carol ∈ db_profiles Scenario.decided) as Hp by by_computation.
  assert ("a2"%string ∉ approval_actions.id <$> db_actions Scenario.decided)
    as Hfresh by by_computation.
  destruct (second_decision_goes_through Scenario.carol "r2" rejected 20 21 "a2"
              Scenario.decided
              (mk "r2" "bob" "R2" (Some "") "Sales" "approved" (Some 2) 1 10)%string
              Hpk eq_refl ltac:(discriminate) Hp (or_introl eq_refl) Hfresh)
    as (db' & Hout & _ & _ & Hact).
  eexists _, db'.
  split_and!; [exact Hpk | reflexivity | reflexivity | exact Hp | exact Hfresh
              | exact Hout |].
  rewrite Hact. reflexivity.
Defined.

(** C3, as stated, fails: the request approved in Scenario B is rejected by
    a second call, which reports success and leaves two approval actions
    that reference the request. *)
Lemma second_decision_is_not_refused :
  status <$> find_row "r2" (db_requests Scenario.decided)
  = Some "approved"%string
  ∧ Scenario.decided_again.2 = toast_decided rejected
  ∧ status <$> find_row "r2" (db_requests Scenario.decided_again.1)
    = Some "rejected"%string
  ∧ approval_actions.action
    <$> filter (λ act, approval_actions.request_id act = "r2"%string)
               (db_actions Scenario.decided_again.1)
    = ["approved"; "rejected"]%string.
Proof. split_and!; reflexivity. Qed.

(** ** Who can decide *)

(** Where the guard holds. A principal without the approver or admin role
    cannot change a request somebody else submitted: the handler raises the
    no-permission notice and writes nothing, and at the store the update
    policies hide the row, so the statement changes nothing. *)
Theorem outsider_cannot_decide requestId db :
  (∀ (user : option uuid) (profile : option profiles.row) (a : decision)
     (now_update now_insert : timestamptz) (gen_random_uuid : uuid),
     (∀ p, profile = Some p →
           profiles.role p ≠ "approver"%string
           ∧ profiles.role p ≠ "admin"%string) →
     handleApprovalAction user profile requestId a
                          now_update now_insert gen_random_uuid db
     = (db, toast_no_permission))
  ∧ (∀ uid now u,
       ¬ is_approver (db_profiles db) uid →
       (∀ r, r ∈ db_requests db → id r = requestId → uid ≠ Some (user_id r)) →
       update_request uid now u requestId db = (db, None)).
Proof.
  split.
  - intros user profile a n1 n2 g Hrole. unfold handleApprovalAction.
    destruct user as [usr|], profile as [p|]; try done.
    rewrite decide_True; [done|]. by apply Hrole.
  - intros uid now u Hrole Hown. unfold update_request.
    destruct (find_row requestId (db_requests db)) as [OLD|] eqn:Hfind; [|done].
    apply find_row_Some in Hfind as [Hold Hid].
    rewrite decide_False; [done|].
    intros [Hme|Happ]; [|done]. by apply (Hown OLD).
Qed.

Lemma outsider_cannot_decide_witness :
  handleApprovalAction (Some "bob"%string) (Some Scenario.bob) "r1" approved
                       10 11 "a1" Scenario.three
  = (Scenario.three, toast_no_permission)
  ∧ ¬ is_approver (db_profiles Scenario.three) (Some "bob"%string)
  ∧ update_request (Some "bob"%string) 10 (status_update approved) "r1"
                   Scenario.three
    = (Scenario.three, None).
Proof.
  destruct (outsider_cannot_decide "r1" Scenario.three) as [Hui Hstore].
  assert (¬ is_approver (db_profiles Scenario.three) (Some "bob"%string))
    as Hrole by by_computation.
  split_and!.
  - apply Hui. intros p [= <-]. split; discriminate.
  - exact Hrole.
  - apply Hstore; [exact Hrole|].
    apply (proj1 (Forall_forall
             (λ r, id r = "r1"%string → Some "bob"%string ≠ Some (user_id r)) _)).
    by_computation.
Defined.

(** C4. The guard is missing on one path of the store. In Scenario A an
    employee who is neither approver nor admin decides her own request:
    the handler refuses her and the policy of [approval_actions] refuses
    the action she would record, but the UPDATE of the status passes under
    "Users can update their own requests", so the request is approved and
    the queue behind it moves up. *)
Theorem employee_approves_own_request :
  ¬ is_approver (db_profiles Scenario.three) (Some "alice"%string)
  ∧ handleApprovalAction (Some "alice"%string) (Some Scenario.alice) "r1"
                         approved 10 11 "a1" Scenario.three
    = (Scenario.three, toast_no_permission)
  ∧ insert_action (Some "alice"%string) 11 "a1"
                  (action_record "r1" "alice" approved) Scenario.three
    = error rls_violation
  ∧ Scenario.positions Scenario.three
    = [("r1", "pending", Some 1); ("r2", "pending", Some 2);
       ("r3", "pending", Some 3)]%string
  ∧ Scenario.positions
      (update_request (Some "alice"%string) 10 (status_update approved) "r1"
                      Scenario.three).1
    = [("r1", "approved", Some 1); ("r2", "pending", Some 1);
       ("r3", "pending", Some 2)]%string.
Proof.
  split_and!; [by_computation | reflexivity | | reflexivity | reflexivity].
  unfold insert_action. rewrite decide_False; [done|].
  intros (_ & _ & Happ). revert Happ. by_computation.
Qed.

(** ** Submissions *)




(** ** Ranges with one more position *)

(** The range 1..m with one more position is the range 1..m+1 exactly when
    the position added is m + 1. *)
Lemma range_with_extra (k : Z) (m : nat) :
  Some k :: (Some <$> seqZ 1 (Z.of_nat m)) ≡ₚ Some <$> seqZ 1 (Z.of_nat (S m))
  ↔ k = 1 + Z.of_nat m.
Proof.
  rewrite seqZ_S, fmap_app. simpl. rewrite <-Permutation_cons_append.
  split.
  - intros Hall.
    assert (Some (1 + Z.of_nat m) ∈ Some k :: (Some <$> seqZ 1 (Z.of_nat m)))
      as Hin by (rewrite Hall; left).
    apply elem_of_cons in Hin as [E|Hin]; [by simplify_eq|].
    apply list_elem_of_fmap in Hin as (x & E & Hx). simplify_eq.
    apply elem_of_seqZ in Hx. lia.
  - by intros ->.
Qed.

Lemma filter_and_length {A} (P Q : A → Prop)
    `{!∀ x, Decision (P x), !∀ x, Decision (Q x)} (l : list A) :
  length (filter (λ x, P x ∧ Q x) l) = length (filter P l)
  ↔ ∀ x, x ∈ l → P x → Q x.
Proof.
  induction l as [|x l IH].
  { split; [|done]. intros _ y Hy. by apply not_elem_of_nil in Hy. }
  rewrite !filter_cons.
  assert (length (filter (λ x, P x ∧ Q x) l) ≤ length (filter P l))%nat as Hle.
  { rewrite <-(list_filter_filter_l (λ x, P x ∧ Q x) P) by tauto.
    apply length_filter. }
  destruct (decide (P x)) as [HP|HP].
  - destruct (decide (Q x)) as [HQ|HQ].
    + rewrite decide_True by done. simpl. split.
      * intros E y [->|Hy]%elem_of_cons; [done|]. apply IH; [lia|done].
      * intros Hall. f_equal. apply IH. intros y Hy. apply Hall. by right.
    + rewrite decide_False by tauto. simpl. split; [lia|].
      intros Hall. destruct HQ. apply Hall; [left|done].
  - rewrite decide_False by tauto. split.
    + intros E y [->|Hy]%elem_of_cons; [done|]. by apply IH.
    + intros Hall. apply IH. intros y Hy. apply Hall. by right.
Qed.

(** ** What a recompute establishes *)

Lemma StronglySorted_lookup_lt {A} (R : relation A) (l : list A) (i j : nat) x y :
  StronglySorted R l → l !! i = Some x → l !! j = Some y → (i < j)%nat → R x y.
Proof.
  intros Hs. revert i j. induction Hs as [|z l Hs IH Hall]; intros i j; [done|].
  destruct i as [|i], j as [|j]; simpl; intros Hi Hj Hlt; try lia.
  - simplify_eq. eapply Forall_forall; [exact Hall|].
    by eapply list_elem_of_lookup_2.
  - eapply IH; eauto. lia.
Qed.

(** The rows in scope, numbered along the sort, carry 1..n. *)
Lemma numbered_positions (l : list (uuid * timestamptz)) :
  NoDup l.*1 →
  (λ c, new_position (imap (λ i c, (c.1, Z.of_nat (S i))) l) c.1) <$> l
  = Some <$> seqZ 1 (Z.of_nat (length l)).
Proof.
  intros Hnd. apply list_eq. intros i. rewrite !list_lookup_fmap.
  destruct (l !! i) as [c|] eqn:Hi; simpl.
  - pose proof (new_position_numbered l 0 i c Hnd Hi) as E.
    cbn [Nat.add] in E. rewrite E.
    apply lookup_lt_Some in Hi as Hlt.
    rewrite lookup_seqZ_lt by lia.
    change (Some (Some (Z.of_nat (S i))) = Some (Some (1 + Z.of_nat i))).
    do 2 f_equal. lia.
  - apply lookup_ge_None in Hi. rewrite lookup_seqZ_ge by lia. done.
Qed.

Lemma recompute_positions ev NEW now tbl :
  primary_key tbl →
  queue_position
  <$> (reposition now (ranked_requests ev NEW tbl)
       <$> filter (in_scope ev NEW) tbl)
  ≡ₚ Some <$> seqZ 1 (Z.of_nat (length (filter (in_scope ev NEW) tbl))).
Proof.
  intros Hpk.
  set (rk := ranked_requests ev NEW tbl).
  transitivity ((λ c : uuid * timestamptz, new_position rk c.1)
                <$> candidates ev NEW tbl).
  { unfold candidates. rewrite <-!list_fmap_compose.
    erewrite list_fmap_ext; [reflexivity|].
    intros i r Hr. simpl.
    apply list_elem_of_lookup_2, list_elem_of_filter in Hr as [Hs Hr].
    destruct (ranked_in_scope ev NEW tbl r Hpk Hr Hs) as (k & _ & Hk).
    fold rk in Hk. rewrite Hk. by apply reposition_position. }
  rewrite <-(merge_sort_Permutation created_le (candidates ev NEW tbl)) at 1.
  unfold rk, ranked_requests.
  rewrite numbered_positions by by apply sorted_candidates_NoDup.
  rewrite (Permutation_length (merge_sort_Permutation created_le _)).
  unfold candidates. by rewrite length_fmap.
Qed.

Lemma recompute_order ev NEW tbl a b :
  primary_key tbl → a ∈ tbl → b ∈ tbl →
  in_scope ev NEW a → in_scope ev NEW b →
  created_at a < created_at b →
  ∃ pa pb,
    new_position (ranked_requests ev NEW tbl) (id a) = Some pa
    ∧ new_position (ranked_requests ev NEW tbl) (id b) = Some pb
    ∧ 0 < pa < pb
    ∧ pb ≤ Z.of_nat (length (filter (in_scope ev NEW) tbl)).
Proof.
  intros Hpk Ha Hb Hsa Hsb Hlt.
  destruct (ranked_in_scope ev NEW tbl a Hpk Ha Hsa) as (i & Hi & Hpa).
  destruct (ranked_in_scope ev NEW tbl b Hpk Hb Hsb) as (j & Hj & Hpb).
  exists (Z.of_nat (S i)), (Z.of_nat (S j)). split_and!; try done; try lia.
  - destruct (decide (i < j)%nat) as [|Hge]; [lia|].
    destruct (decide (i = j)) as [->|Hne].
    + rewrite Hi in Hj. simplify_eq. lia.
    + assert (created_le (id b, created_at b) (id a, created_at a)) as Hle.
      { eapply (StronglySorted_lookup_lt created_le _ j i); eauto; [|lia].
        apply StronglySorted_merge_sort; apply _. }
      unfold created_le in Hle. simpl in Hle. lia.
  - apply lookup_lt_Some in Hj.
    rewrite (Permutation_length (merge_sort_Permutation created_le _)) in Hj.
    unfold candidates in Hj. rewrite length_fmap in Hj. lia.
Qed.

Lemma filter_pending_reposition ev NEW now rk tbl :
  is_insert ev →
  filter (λ r, status r = "pending"%string) (reposition now rk <$> tbl)
  = reposition now rk <$> filter (in_scope ev NEW) tbl.
Proof.
  intros Hev. rewrite filter_fmap. f_equal. apply list_filter_iff.
  intros r. unfold in_scope. simpl. rewrite reposition_status. tauto.
Qed.

Lemma filter_pending_replace_row OLD NEW NEW' now rk tbl :
  status NEW' ≠ "pending"%string →
  filter (λ r, status r = "pending"%string)
         (replace_row (id NEW) NEW' (reposition now rk <$> tbl))
  = reposition now rk <$> filter (in_scope (TG_UPDATE OLD) NEW) tbl.
Proof.
  intros Hnp. induction tbl as [|r tbl IH]; [done|].
  unfold replace_row in *. csimpl. rewrite !filter_cons, IH.
  unfold in_scope. simpl. rewrite reposition_id.
  destruct (decide (id r = id NEW)) as [E|E].
  - rewrite decide_False by done. rewrite decide_False; [done|]. tauto.
  - rewrite reposition_status.
    destruct (decide (status r = "pending"%string)) as [Hp|Hp].
    + by rewrite decide_True by tauto.
    + by rewrite decide_False by tauto.
Qed.

(** The rows a recompute has ranked are in creation order, with positions
    between 1 and their number. *)
Lemma recompute_ordered ev NEW now tbl a b :
  primary_key tbl →
  a ∈ reposition now (ranked_requests ev NEW tbl) <$> filter (in_scope ev NEW) tbl →
  b ∈ reposition now (ranked_requests ev NEW tbl) <$> filter (in_scope ev NEW) tbl →
  created_at a < created_at b →
  ∃ pa pb,
    queue_position a = Some pa ∧ queue_position b = Some pb ∧ 0 < pa < pb
    ∧ pb ≤ Z.of_nat (length (filter (in_scope ev NEW) tbl)).
Proof.
  intros Hpk (a0 & -> & [Hsa Ha]%list_elem_of_filter)%list_elem_of_fmap
             (b0 & -> & [Hsb Hb]%list_elem_of_filter)%list_elem_of_fmap Hlt.
  rewrite !reposition_created_at in Hlt.
  destruct (recompute_order ev NEW tbl a0 b0 Hpk Ha Hb Hsa Hsb Hlt)
    as (pa & pb & Hpa & Hpb & Hord & Hmax).
  exists pa, pb. by rewrite !(reposition_position _ _ _ _ Hpa),
                            !(reposition_position _ _ _ _ Hpb).
Qed.

(** After an update that takes a request out of 'pending', the pending
    requests hold the positions 1..n in creation order, whatever the
    positions were before. *)
Lemma decision_restores_queue uid now (a : decision) requestId db OLD :
  primary_key (db_requests db) →
  find_row requestId (db_requests db) = Some OLD →
  status OLD = "pending"%string →
  can_update_request (db_profiles db) uid OLD →
  dense (db_requests (update_request uid now (status_update a) requestId db).1)
  ∧ ordered
      (db_requests (update_request uid now (status_update a) requestId db).1).
Proof.
  intros Hpk Hfind Hst Hcan. unfold update_request. rewrite Hfind.
  apply find_row_Some in Hfind as [Hold Hid].
  rewrite decide_True by done. simpl.
  set (NEW := update_updated_at_column now (apply_set (status_update a) OLD)).
  assert (maintainer_fires (TG_UPDATE OLD) NEW) as Hf.
  { simpl. rewrite Hst. split; [left|by left].
    apply not_eq_sym, decision_text_not_pending. }
  unfold update_queue_positions. rewrite (decide_True _ _ Hf).
  rewrite decide_False by apply decision_text_not_pending. simpl.
  assert (requestId = id NEW) as -> by done.
  pose proof (filter_pending_replace_row OLD NEW NEW now
                (ranked_requests (TG_UPDATE OLD) NEW (db_requests db))
                (db_requests db) (decision_text_not_pending a)) as Hpend.
  split.
  - unfold dense, pending_positions. rewrite Hpend, !length_fmap.
    by apply recompute_positions.
  - intros x y Hx Hy Hpx Hpy Hlt.
    assert (∀ z, z ∈ replace_row (id NEW) NEW
                   (reposition now
                      (ranked_requests (TG_UPDATE OLD) NEW (db_requests db))
                    <$> db_requests db) →
                 status z = "pending"%string →
                 z ∈ reposition now
                       (ranked_requests (TG_UPDATE OLD) NEW (db_requests db))
                     <$> filter (in_scope (TG_UPDATE OLD) NEW) (db_requests db))
      as Hin.
    { intros z Hz Hpz. rewrite <-Hpend. by apply list_elem_of_filter. }
    destruct (recompute_ordered _ _ _ _ x y Hpk (Hin x Hx Hpx) (Hin y Hy Hpy) Hlt)
      as (px & py & ? & ? & ? & _).
    exists px, py. split_and!; [done..|lia].
Qed.

(** What an accepted insert of a pending request leaves in the table. *)
Lemma insert_request_ok
    uid now (gen_random_uuid : uuid) (v : insert_values) db db' :
  insert_request uid now gen_random_uuid v db = ok db' →
  default "pending"%string (ins_status v) = "pending"%string →
  ∃ NEW,
    status NEW = "pending"%string
    ∧ created_at NEW = default now (ins_created_at v)
    ∧ db_requests db'
      = (reposition now (ranked_requests TG_INSERT NEW (db_requests db))
         <$> db_requests db)
        ++ [set_queue_position
              (Some (count_earlier NEW (db_requests db) + 1)) NEW].
Proof.
  unfold insert_request. intros Hins Hst.
  case_decide as Hrls; [|done].
  destruct (ins_user_id v) as [usr|]; [|done].
  destruct (ins_title v) as [t|]; [|done].
  destruct (ins_department v) as [d|]; [|done].
  case_decide as Hfresh; [done|].
  injection Hins as <-. simpl. eexists. split_and!; [| |].
  3: { unfold update_queue_positions.
       rewrite decide_True by done. simpl. rewrite decide_True by done.
       by rewrite count_earlier_reposition. }
  all: done.
Qed.

Lemma pending_after_insert NEW now rk (p : option Z) tbl :
  status NEW = "pending"%string →
  filter (λ r, status r = "pending"%string)
         ((reposition now rk <$> tbl) ++ [set_queue_position p NEW])
  = (reposition now rk <$> filter (in_scope TG_INSERT NEW) tbl)
    ++ [set_queue_position p NEW].
Proof.
  intros Hst.
  rewrite filter_app, (filter_pending_reposition TG_INSERT NEW) by done.
  f_equal. rewrite filter_cons_True by done. by rewrite filter_nil.
Qed.

Lemma in_scope_insert_length NEW tbl :
  length (filter (in_scope TG_INSERT NEW) tbl) = length (pending_positions tbl).
Proof.
  unfold pending_positions. rewrite length_fmap. f_equal.
  apply list_filter_iff. intros r. unfold in_scope. simpl. tauto.
Qed.

(** An insert of a pending request leaves the pending positions 1..n
    exactly when the new request is created strictly later than every
    request that was pending: its position is then n + 1, and otherwise
    one that a request of the table holds too. *)
Lemma insert_dense_iff_latest
    uid now (gen_random_uuid : uuid) (v : insert_values) db db' :
  primary_key (db_requests db) →
  insert_request uid now gen_random_uuid v db = ok db' →
  default "pending"%string (ins_status v) = "pending"%string →
  dense (db_requests db')
  ↔ ∀ r, r ∈ db_requests db → status r = "pending"%string →
         created_at r < default now (ins_created_at v).
Proof.
  intros Hpk Hins Hst.
  destruct (insert_request_ok _ _ _ _ _ _ Hins Hst) as (NEW & Hp & Hc & ->).
  rewrite <-Hc. clear Hins Hst Hc.
  set (n := length (pending_positions (db_requests db))).
  assert (pending_positions
            ((reposition now (ranked_requests TG_INSERT NEW (db_requests db))
              <$> db_requests db)
             ++ [set_queue_position
                   (Some (count_earlier NEW (db_requests db) + 1)) NEW])
          ≡ₚ Some (count_earlier NEW (db_requests db) + 1)
             :: (Some <$> seqZ 1 (Z.of_nat n))) as Hpos.
  { unfold pending_positions at 1. rewrite pending_after_insert by done.
    rewrite fmap_app. simpl. rewrite <-Permutation_cons_append.
    apply perm_skip. unfold n. rewrite <-(in_scope_insert_length NEW).
    by apply recompute_positions. }
  unfold dense. rewrite (Permutation_length Hpos). simpl.
  rewrite length_fmap, length_seqZ, Nat2Z.id, Hpos, range_with_extra.
  unfold count_earlier, n, pending_positions. rewrite length_fmap.
  rewrite <-(filter_and_length (λ r, status r = "pending"%string)
                               (λ r, created_at r < created_at NEW)).
  lia.
Qed.

(** After an insert of a pending request created strictly later than every
    pending request of the table, the pending requests hold the positions
    1..n in creation order. *)
Lemma latest_insert_keeps_queue
    uid now (gen_random_uuid : uuid) (v : insert_values) db db' :
  primary_key (db_requests db) →
  insert_request uid now gen_random_uuid v db = ok db' →
  default "pending"%string (ins_status v) = "pending"%string →
  (∀ r, r ∈ db_requests db → status r = "pending"%string →
        created_at r < default now (ins_created_at v)) →
  dense (db_requests db') ∧ ordered (db_requests db').
Proof.
  intros Hpk Hins Hst Hlate.
  split; [by eapply insert_dense_iff_latest|].
  destruct (insert_request_ok _ _ _ _ _ _ Hins Hst) as (NEW & Hp & Hc & ->).
  rewrite <-Hc in Hlate. clear Hins Hst Hc.
  set (rk := ranked_requests TG_INSERT NEW (db_requests db)).
  set (NEW' := set_queue_position _ NEW).
  intros x y Hx Hy Hpx Hpy Hlt.
  assert (∀ z, z ∈ (reposition now rk <$> db_requests db) ++ [NEW'] →
               status z = "pending"%string →
               z ∈ reposition now rk
                   <$> filter (in_scope TG_INSERT NEW) (db_requests db)
               ∨ z = NEW') as Hin.
  { intros z Hz Hpz.
    assert (z ∈ filter (λ r, status r = "pending"%string)
                  ((reposition now rk <$> db_requests db) ++ [NEW'])) as Hz'
      by by apply list_elem_of_filter.
    unfold NEW' in Hz'. rewrite pending_after_insert in Hz' by done.
    apply elem_of_app in Hz' as [?|?%list_elem_of_singleton]; auto. }
  assert (∀ z, z ∈ reposition now rk
                   <$> filter (in_scope TG_INSERT NEW) (db_requests db) →
               created_at z < created_at NEW
               ∧ ∃ pz, queue_position z = Some pz
                       ∧ pz < count_earlier NEW (db_requests db) + 1) as Hold.
  { intros z (z0 & -> & [Hs Hz]%list_elem_of_filter)%list_elem_of_fmap.
    rewrite reposition_created_at.
    split; [apply Hlate; [done|apply Hs]|].
    destruct (ranked_in_scope TG_INSERT NEW (db_requests db) z0 Hpk Hz Hs)
      as (i & Hi & Hpz).
    exists (Z.of_nat (S i)). split; [by apply reposition_position|].
    apply lookup_lt_Some in Hi.
    rewrite (Permutation_length (merge_sort_Permutation created_le _)) in Hi.
    unfold candidates in Hi. rewrite length_fmap in Hi.
    enough (count_earlier NEW (db_requests db)
            = Z.of_nat (length (filter (in_scope TG_INSERT NEW) (db_requests db))))
      by lia.
    unfold count_earlier. do 2 f_equal.
    apply filter_iff_elem_of. intros r Hr. unfold in_scope. simpl.
    specialize (Hlate r Hr). tauto. }
  destruct (Hin x Hx Hpx) as [Hx'| ->], (Hin y Hy Hpy) as [Hy'| ->].
  - destruct (recompute_ordered _ _ _ _ x y Hpk Hx' Hy' Hlt)
      as (px & py & ? & ? & ? & _).
    exists px, py. split_and!; [done..|lia].
  - destruct (Hold x Hx') as (_ & px & Hpos & Hmax).
    by exists px, (count_earlier NEW (db_requests db) + 1).
  - destruct (Hold y Hy') as (Hearly & _). simpl in Hlt. lia.
  - lia.
Qed.

(** ** Inserts that are not the latest *)

(** C1, at the failing input. A pending request inserted with a creation
    time earlier than that of a request already pending gets position 1 +
    0 = 1, while the recompute, which does not see the new row, leaves the
    other request at 1: two pending requests share a position and the
    earlier one is not in front. The same happens when the two creation
    times are equal. *)
Theorem backdated_insert_duplicates_position :
  ∃ db',
    dense (db_requests Scenario.one) ∧ ordered (db_requests Scenario.one)
    ∧ insert_request (Some "bob"%string) 6 "r2" Scenario.backdated Scenario.one
      = ok db'
    ∧ (λ r, (id r, created_at r, queue_position r)) <$> db_requests db'
      = [("r1", 5, Some 1); ("r2", 3, Some 1)]%string
    ∧ ¬ dense (db_requests db')
    ∧ ¬ ordered (db_requests db')
    ∧ (λ r, (id r, created_at r, queue_position r))
      <$> db_requests Scenario.tied
      = [("r1", 5, Some 1); ("r2", 5, Some 1)]%string
    ∧ ¬ dense (db_requests Scenario.tied).
Proof.
  eexists. split_and!; [by_computation | | reflexivity | reflexivity
                       | by_computation | | reflexivity | by_computation].
  - intros a b Ha Hb _ _ Hlt. vm_compute in Ha, Hb.
    apply list_elem_of_singleton in Ha as ->.
    apply list_elem_of_singleton in Hb as ->.
    simpl in Hlt. lia.
  - intros Hord.
    destruct (Hord (mk "r2" "bob" "R2" None "Sales" "pending" (Some 1) 3 6)%string
                   (mk "r1" "alice" "R1" (Some "") "Sales" "pending" (Some 1) 5 5)%string)
      as (pa & pb & Hpa & Hpb & Hlt);
      [by_computation | by_computation | reflexivity | reflexivity
      | reflexivity |].
    simpl in Hpa, Hpb. simplify_eq. lia.
Qed.

(** ** Deletion *)

Lemma filter_all {A} (P : A → Prop) `{!∀ x, Decision (P x)} (l : list A) :
  (∀ x, x ∈ l → P x) → filter P l = l.
Proof.
  induction l as [|x l IH]; intros Hl; [done|].
  rewrite filter_cons_True by (apply Hl; left).
  f_equal. apply IH. intros y Hy. apply Hl. by right.
Qed.

(** With a primary key, a table is the row with a given identifier and the
    rows with another one. *)
Lemma primary_key_split tbl r :
  primary_key tbl → r ∈ tbl →
  tbl ≡ₚ r :: filter (λ x, id x ≠ id r) tbl.
Proof.
  unfold primary_key. induction tbl as [|x tbl IH]; intros Hpk Hr.
  { by apply not_elem_of_nil in Hr. }
  csimpl in Hpk. apply NoDup_cons in Hpk as [Hx Hpk].
  rewrite filter_cons. apply elem_of_cons in Hr as [->|Hr].
  - rewrite decide_False by (intros E; by apply E).
    rewrite filter_all; [done|].
    intros y Hy E. apply Hx. rewrite <-E. by apply list_elem_of_fmap_2.
  - rewrite decide_True.
    + rewrite (IH Hpk Hr) at 1. apply perm_swap.
    + intros E. apply Hx. rewrite E. by apply list_elem_of_fmap_2.
Qed.

Lemma pending_positions_delete requestId db OLD k :
  primary_key (db_requests db) →
  OLD ∈ db_requests db → id OLD = requestId →
  status OLD = "pending"%string → queue_position OLD = Some k →
  pending_positions (db_requests db)
  ≡ₚ Some k :: pending_positions (db_requests (delete_request requestId db)).
Proof.
  intros Hpk Hold <- Hst Hk. unfold pending_positions. simpl.
  rewrite (primary_key_split _ OLD Hpk Hold) at 1.
  rewrite filter_cons_True by done. csimpl. by rewrite Hk.
Qed.

(** C8, as the code has it. No trigger of the table fires on DELETE: the
    requests that remain after the deletion of a pending request are the
    rows they were, so the pending positions are those of before without
    the position [k] of the deleted request. Starting from the dense range
    1..n, they are dense again only when the deleted request was the last
    of the queue ([k = n]); otherwise the gap at [k] stays. *)
Theorem delete_leaves_positions requestId db OLD k :
  primary_key (db_requests db) →
  dense (db_requests db) →
  OLD ∈ db_requests db → id OLD = requestId →
  status OLD = "pending"%string → queue_position OLD = Some k →
  (∀ r, r ∈ db_requests (delete_request requestId db)
        ↔ r ∈ db_requests db ∧ id r ≠ requestId)
  ∧ Some k :: pending_positions (db_requests (delete_request requestId db))
    ≡ₚ Some <$> seqZ 1 (Z.of_nat (length (pending_positions (db_requests db))))
  ∧ (dense (db_requests (delete_request requestId db))
     ↔ k = Z.of_nat (length (pending_positions (db_requests db)))).
Proof.
  intros Hpk Hdense Hold Hid Hst Hk.
  pose proof (pending_positions_delete requestId db OLD k Hpk Hold Hid Hst Hk)
    as Hsplit.
  unfold dense in *.
  set (rest := pending_positions (db_requests (delete_request requestId db))) in *.
  assert (length (pending_positions (db_requests db)) = S (length rest)) as Hlen.
  { by rewrite (Permutation_length Hsplit). }
  rewrite Hlen in *.
  assert (Some k :: rest ≡ₚ Some <$> seqZ 1 (Z.of_nat (S (length rest)))) as Hall.
  { by rewrite <-Hsplit. }
  split_and!.
  - intros r. simpl. rewrite list_elem_of_filter. tauto.
  - exact Hall.
  - assert (k = 1 + Z.of_nat (length rest) ↔ k = Z.of_nat (S (length rest)))
      as <- by lia.
    rewrite <-range_with_extra. split.
    + intros Hrest. etransitivity; [|exact Hall].
      apply perm_skip. by symmetry.
    + intros Hrange. apply (Permutation_cons_inv (a := Some k)).
      etransitivity; [exact Hall|]. by symmetry.
Qed.

Lemma delete_leaves_positions_witness :
  ∃ OLD,
    primary_key (db_requests Scenario.three)
    ∧ dense (db_requests Scenario.three)
    ∧ OLD ∈ db_requests Scenario.three
    ∧ id OLD = "r2"%string
    ∧ status OLD = "pending"%string
    ∧ queue_position OLD = Some 2
    ∧ Some 2 :: pending_positions (db_requests Scenario.deleted)
      ≡ₚ [Some 1; Some 2; Some 3]
    ∧ (dense (db_requests Scenario.deleted) ↔ 2 = 3).
Proof.
  exists (mk "r2" "bob" "R2" (Some "") "Sales" "pending" (Some 2) 1 1)%string.
  assert (primary_key (db_requests Scenario.three)) as Hpk by by_computation.
  assert (dense (db_requests Scenario.three)) as Hdense by by_computation.
  assert ((mk "r2" "bob" "R2" (Some "") "Sales" "pending" (Some 2) 1 1)%string
          ∈ db_requests Scenario.three) as Hold by by_computation.
  destruct (delete_leaves_positions "r2" Scenario.three _ 2 Hpk Hdense Hold
              eq_refl eq_refl eq_refl) as (_ & Hpos & Hiff).
  split_and!; [exact Hpk | exact Hdense | exact Hold | reflexivity..
              | exact Hpos | exact Hiff].
Defined.

(** C8, as stated, fails: Scenario A holds the positions 1, 2, 3; after the
    second request is deleted the two that remain hold 1 and 3. *)
Lemma delete_leaves_gap :
  dense (db_requests Scenario.three)
  ∧ Scenario.positions Scenario.deleted
    = [("r1", "pending", Some 1); ("r3", "pending", Some 3)]%string
  ∧ ¬ dense (db_requests Scenario.deleted).
Proof. split_and!; [by_computation | reflexivity | by_computation]. Qed.

(** ** What every statement keeps *)

Lemma run_table_ids ev NEW now tbl :
  id <$> run_table (update_queue_positions ev NEW now tbl) = id <$> tbl.
Proof.
  destruct (run_table_cases ev NEW now tbl) as [-> | ->]; [done|].
  rewrite <-list_fmap_compose. apply list_fmap_ext.
  intros _ r _. apply reposition_id.
Qed.

(** The identifiers of the table after an UPDATE are those of before, in
    the same order. *)
Lemma update_request_ids uid now u requestId db :
  id <$> db_requests (update_request uid now u requestId db).1
  = id <$> db_requests db.
Proof.
  unfold update_request.
  destruct (find_row requestId (db_requests db)) as [OLD|] eqn:Hfind; [|done].
  apply find_row_Some in Hfind as [_ Hid].
  case_decide; [|done].
  destruct (upd_status u); simpl.
  - rewrite replace_row_ids, run_table_ids; [done|].
    rewrite run_new_id. simpl. by rewrite apply_set_id.
  - rewrite replace_row_ids; [done|]. simpl. by rewrite apply_set_id.
Qed.

Lemma insert_request_ids uid now (gen_random_uuid : uuid) (v : insert_values)
    db db' :
  insert_request uid now gen_random_uuid v db = ok db' →
  id <$> db_requests db'
  = (id <$> db_requests db) ++ [default gen_random_uuid (ins_id v)]
  ∧ default gen_random_uuid (ins_id v) ∉ id <$> db_requests db.
Proof.
  unfold insert_request. intros Hins.
  case_decide as Hrls; [|done].
  destruct (ins_user_id v) as [usr|]; [|done].
  destruct (ins_title v) as [t|]; [|done].
  destruct (ins_department v) as [d|]; [|done].
  case_decide as Hfresh; [done|].
  injection Hins as <-. simpl.
  by rewrite fmap_app, run_table_ids, (fmap_cons id), run_new_id.
Qed.

Lemma handleApprovalAction_requests
    user profile requestId (a : decision) (now_update now_insert : timestamptz)
    (gen_random_uuid : uuid) db :
  db_requests (handleApprovalAction user profile requestId a
                 now_update now_insert gen_random_uuid db).1
  = db_requests db
  ∨ db_requests (handleApprovalAction user profile requestId a
                   now_update now_insert gen_random_uuid db).1
    = db_requests (update_request user now_update (status_update a)
                                  requestId db).1.
Proof.
  unfold handleApprovalAction.
  destruct user as [usr|], profile as [p|]; auto.
  case_decide; auto. right.
  unfold insert_action. simpl.
  repeat case_decide; done.
Qed.

(** X1. The primary key of [approval_requests] survives every statement and
    both handlers: an accepted insert brings a fresh identifier, an update
    and a decision keep the identifiers, a deletion removes one. *)
Theorem statements_keep_primary_key db :
  primary_key (db_requests db) →
  (∀ uid now (gen_random_uuid : uuid) v db',
     insert_request uid now gen_random_uuid v db = ok db' →
     primary_key (db_requests db'))
  ∧ (∀ uid now u requestId,
       primary_key (db_requests (update_request uid now u requestId db).1))
  ∧ (∀ requestId, primary_key (db_requests (delete_request requestId db)))
  ∧ (∀ user profile t c now (gen_random_uuid : uuid),
       primary_key (db_requests
                      (handleSubmit user profile t c now gen_random_uuid db).1))
  ∧ (∀ user profile requestId (a : decision)
       (now_update now_insert : timestamptz) (gen_random_uuid : uuid),
       primary_key (db_requests
                      (handleApprovalAction user profile requestId a
                         now_update now_insert gen_random_uuid db).1)).
Proof.
  intros Hpk.
  assert (∀ uid now (gen_random_uuid : uuid) v db',
            insert_request uid now gen_random_uuid v db = ok db' →
            primary_key (db_requests db')) as Hins.
  { intros uid now g v db' Hok. unfold primary_key.
    destruct (insert_request_ids _ _ _ _ _ _ Hok) as [-> Hfresh].
    apply NoDup_app. split_and!; [done| |apply NoDup_singleton].
    intros i Hi ->%list_elem_of_singleton. done. }
  assert (∀ uid now u requestId,
            primary_key (db_requests (update_request uid now u requestId db).1))
    as Hupd.
  { intros. unfold primary_key. by rewrite update_request_ids. }
  split_and!; [done..| | |].
  - intros requestId. unfold primary_key. simpl.
    eapply sublist_NoDup; [exact Hpk|]. apply fmap_sublist, sublist_filter.
  - intros user profile t c now g. unfold handleSubmit.
    destruct user as [usr|], profile as [p|]; try done.
    destruct (insert_request _ _ _ _ _) as [db'|e] eqn:Hok; [|done].
    by eapply Hins.
  - intros user profile requestId a n1 n2 g.
    destruct (handleApprovalAction_requests user profile requestId a n1 n2 g db)
      as [-> | ->]; [done | apply Hupd].
Qed.

Lemma statements_keep_primary_key_witness :
  primary_key (db_requests Scenario.three)
  ∧ primary_key (db_requests Scenario.decided)
  ∧ primary_key (db_requests Scenario.deleted).
Proof.
  assert (primary_key (db_requests Scenario.three)) as Hpk by by_computation.
  destruct (statements_keep_primary_key Scenario.three Hpk)
    as (_ & _ & Hdel & _ & Hdec).
  split_and!; [exact Hpk | apply Hdec | apply Hdel].
Defined.

(** An accepted INSERT INTO approval_actions appends one action, whose
    request is in the table, and leaves the requests alone. *)
Lemma insert_action_ok uid now (gen_random_uuid : uuid) (v : action_values)
    db db' :
  insert_action uid now gen_random_uuid v db = ok db' →
  ∃ act : approval_actions.row,
    db' = mk_database (db_profiles db) (db_requests db) (db_actions db ++ [act])
    ∧ approval_actions.request_id act ∈ id <$> db_requests db
    ∧ can_insert_action (db_profiles db) uid
        (Some (approval_actions.approver_id act)).
Proof.
  unfold insert_action. intros Hok.
  case_decide as Hrls; [|done].
  destruct (act_request_id v) as [r|]; [|done].
  destruct (act_approver_id v) as [a|]; [|done].
  destruct (act_action v) as [d|]; [|done].
  case_decide; [done|]. case_decide as Hfk; [|done].
  injection Hok as <-. eauto.
Qed.

(** X2. The actions always reference requests of the table: an action is
    accepted only for a request that exists, inserts and updates keep the
    identifiers, and a deletion takes the actions of the request with it,
    so that no action references the deleted request. *)
Theorem statements_keep_references db :
  references_hold db →
  (∀ uid now (gen_random_uuid : uuid) v db',
     insert_request uid now gen_random_uuid v db = ok db' → references_hold db')
  ∧ (∀ uid now u requestId,
       references_hold (update_request uid now u requestId db).1)
  ∧ (∀ uid now (gen_random_uuid : uuid) v db',
       insert_action uid now gen_random_uuid v db = ok db' → references_hold db')
  ∧ (∀ requestId,
       references_hold (delete_request requestId db)
       ∧ requestId ∉ approval_actions.request_id
                       <$> db_actions (delete_request requestId db)).
Proof.
  unfold references_hold. intros Href. split_and!.
  - intros uid now g v db' Hok.
    destruct (insert_request_ids _ _ _ _ _ _ Hok) as [-> _].
    assert (db_actions db' = db_actions db) as ->.
    { revert Hok. unfold insert_request. repeat case_match; try done.
      by intros [= <-]. }
    eapply Forall_impl; [exact Href|]. intros a Ha. apply elem_of_app. by left.
  - intros uid now u requestId. rewrite update_request_ids.
    assert (db_actions (update_request uid now u requestId db).1 = db_actions db)
      as ->; [|done].
    unfold update_request. by repeat case_match.
  - intros uid now g v db' Hok.
    destruct (insert_action_ok _ _ _ _ _ _ Hok) as (act & -> & Hfk & _). simpl.
    apply Forall_app. split; [done|]. by apply Forall_singleton.
  - intros requestId. simpl. split.
    + apply Forall_forall. intros a [Hne Ha]%list_elem_of_filter.
      eapply Forall_forall in Href; [|exact Ha].
      apply list_elem_of_fmap in Href as (r & E & Hr).
      apply list_elem_of_fmap. exists r. split; [done|].
      apply list_elem_of_filter. split; [congruence|done].
    + intros (a & E & [Hne _]%list_elem_of_filter)%list_elem_of_fmap. done.
Qed.

Lemma statements_keep_references_witness :
  references_hold Scenario.decided
  ∧ references_hold (delete_request "r2" Scenario.decided)
  ∧ db_actions (delete_request "r2" Scenario.decided) = [].
Proof.
  assert (references_hold Scenario.decided) as Href by by_computation.
  destruct (statements_keep_references Scenario.decided Href)
    as (_ & _ & _ & Hdel).
  split_and!; [exact Href | apply Hdel | reflexivity].
Defined.

(** ** What a decision leaves alone *)

Lemma reposition_same_but_position now rk r :
  same_but_position r (reposition now rk r).
Proof.
  unfold same_but_position, reposition.
  destruct (new_position rk (id r)); [|done]. by case_decide.
Qed.

Lemma Forall2_fmap_diag {A} (P : A → A → Prop) (f : A → A) (l : list A) :
  (∀ x, x ∈ l → P x (f x)) → Forall2 P l (f <$> l).
Proof.
  intros Hf. apply Forall2_fmap_r, Forall_Forall2_diag, Forall_forall, Hf.
Qed.

(** X3. [handleApprovalAction] writes little. Whatever its arguments, the
    profiles are untouched, the requests stay the same rows in the same
    order, and no request changes its submitter, title, content,
    department or creation time; only the request named in the call can
    change its status. *)
Theorem decision_writes_little
    user profile requestId (a : decision) (now_update now_insert : timestamptz)
    (gen_random_uuid : uuid) db :
  primary_key (db_requests db) →
  db_profiles (handleApprovalAction user profile requestId a
                 now_update now_insert gen_random_uuid db).1
  = db_profiles db
  ∧ Forall2 (λ r r',
       id r' = id r ∧ user_id r' = user_id r ∧ title r' = title r
       ∧ content r' = content r ∧ department r' = department r
       ∧ created_at r' = created_at r
       ∧ (id r ≠ requestId → status r' = status r))
      (db_requests db)
      (db_requests (handleApprovalAction user profile requestId a
                      now_update now_insert gen_random_uuid db).1).
Proof.
  intros Hpk. split.
  - unfold handleApprovalAction.
    destruct user as [usr|], profile as [p|]; try done.
    case_decide; [done|].
    assert (db_profiles (update_request (Some usr) now_update (status_update a)
                           requestId db).1 = db_profiles db) as Hps.
    { unfold update_request. by repeat case_match. }
    destruct (insert_action _ _ _ _ _) as [db2|e] eqn:Hok; [|done].
    by destruct (insert_action_ok _ _ _ _ _ _ Hok) as (act & -> & _).
  - destruct (handleApprovalAction_requests user profile requestId a
                now_update now_insert gen_random_uuid db) as [-> | ->].
    { apply Forall_Forall2_diag, Forall_forall. by intros. }
    unfold update_request.
    destruct (find_row requestId (db_requests db)) as [OLD|] eqn:Hfind.
    2: { apply Forall_Forall2_diag, Forall_forall. by intros. }
    apply find_row_Some in Hfind as [Hold Hid].
    case_decide.
    2: { apply Forall_Forall2_diag, Forall_forall. by intros. }
    simpl.
    set (NEW := update_updated_at_column now_update
                  (apply_set (status_update a) OLD)).
    assert (∀ r, r ∈ db_requests db → id r = requestId →
                 id (run_new (update_queue_positions (TG_UPDATE OLD) NEW
                                now_update (db_requests db))) = id r
                 ∧ user_id (run_new (update_queue_positions (TG_UPDATE OLD) NEW
                                now_update (db_requests db))) = user_id r
                 ∧ title (run_new (update_queue_positions (TG_UPDATE OLD) NEW
                                now_update (db_requests db))) = title r
                 ∧ content (run_new (update_queue_positions (TG_UPDATE OLD) NEW
                                now_update (db_requests db))) = content r
                 ∧ department (run_new (update_queue_positions (TG_UPDATE OLD)
                                NEW now_update (db_requests db))) = department r
                 ∧ created_at (run_new (update_queue_positions (TG_UPDATE OLD)
                                NEW now_update (db_requests db))) = created_at r)
      as Htarget.
    { intros r Hr E.
      assert (r = OLD) as -> by (eapply primary_key_inj; eauto; congruence).
      unfold update_queue_positions. by repeat case_decide. }
    unfold replace_row.
    destruct (run_table_cases (TG_UPDATE OLD) NEW now_update (db_requests db))
      as [-> | ->].
    + apply Forall2_fmap_diag. intros r Hr. case_decide as E; [|done].
      destruct (Htarget r Hr E) as (? & ? & ? & ? & ? & ?). by split_and!.
    + rewrite <-list_fmap_compose. apply Forall2_fmap_diag. intros r Hr.
      simpl. rewrite reposition_id. case_decide as E.
      * destruct (Htarget r Hr E) as (? & ? & ? & ? & ? & ?). by split_and!.
      * destruct (reposition_same_but_position now_update
                    (ranked_requests (TG_UPDATE OLD) NEW (db_requests db)) r)
          as (? & ? & ? & ? & ? & ? & ?).
        by split_and!.
Qed.

Lemma decision_writes_little_witness :
  primary_key (db_requests Scenario.three)
  ∧ db_profiles Scenario.decided = db_profiles Scenario.three
  ∧ title <$> db_requests Scenario.decided = title <$> db_requests Scenario.three.
Proof.
  assert (primary_key (db_requests Scenario.three)) as Hpk by by_computation.
  destruct (decision_writes_little (Some "carol"%string) (Some Scenario.carol)
              "r2" approved 10 11 "a1" Scenario.three Hpk) as [Hps _].
  split_and!; [exact Hpk | exact Hps | reflexivity].
Defined.

(** ** The queue across the handlers *)

(** Density and order read the pending rows only. *)
Lemma queue_reads_pending_rows tbl tbl' :
  filter (λ r, status r = "pending"%string) tbl'
  = filter (λ r, status r = "pending"%string) tbl →
  dense tbl ∧ ordered tbl → dense tbl' ∧ ordered tbl'.
Proof.
  intros E [Hd Ho]. split.
  - unfold dense, pending_positions in *. by rewrite E.
  - intros x y Hx Hy Hpx Hpy Hlt.
    assert (∀ z, z ∈ tbl' → status z = "pending"%string → z ∈ tbl) as Hin.
    { intros z Hz Hpz.
      assert (z ∈ filter (λ r, status r = "pending"%string) tbl') as Hz'
        by by apply list_elem_of_filter.
      rewrite E in Hz'. by apply list_elem_of_filter in Hz' as [_ ?]. }
    apply Ho; auto.
Qed.

(** Replacing a decided request by a decided request leaves the pending
    rows as they are. *)
Lemma filter_pending_replace_terminal requestId OLD NEW tbl :
  primary_key tbl → OLD ∈ tbl → id OLD = requestId →
  status OLD ≠ "pending"%string → status NEW ≠ "pending"%string →
  filter (λ r, status r = "pending"%string) (replace_row requestId NEW tbl)
  = filter (λ r, status r = "pending"%string) tbl.
Proof.
  intros Hpk Hold Hid Ho Hn. unfold replace_row.
  rewrite filter_fmap.
  rewrite (filter_iff_elem_of _ (λ r, status r = "pending"%string)).
  - transitivity (Datatypes.id <$> filter (λ r, status r = "pending"%string) tbl);
      [|apply list_fmap_id].
    apply list_fmap_ext. intros i r Hr. simpl.
    apply list_elem_of_lookup_2, list_elem_of_filter in Hr as [Hp Hr].
    case_decide as E; [|done]. destruct Ho.
    by rewrite <-(primary_key_inj tbl r OLD Hpk Hr Hold) by congruence.
  - intros r Hr. simpl. case_decide as E; [|done].
    rewrite (primary_key_inj tbl r OLD Hpk Hr Hold) by congruence. tauto.
Qed.

(** X4. [handleApprovalAction] keeps invariant I1. From a table whose
    pending positions are dense and in creation order, every call, whoever
    makes it and whatever request it names, leaves them dense and in
    creation order. *)
Theorem decision_keeps_queue
    user profile requestId (a : decision) (now_update now_insert : timestamptz)
    (gen_random_uuid : uuid) db :
  primary_key (db_requests db) →
  dense (db_requests db) → ordered (db_requests db) →
  dense (db_requests (handleApprovalAction user profile requestId a
                        now_update now_insert gen_random_uuid db).1)
  ∧ ordered (db_requests (handleApprovalAction user profile requestId a
                            now_update now_insert gen_random_uuid db).1).
Proof.
  intros Hpk Hd Ho.
  destruct (handleApprovalAction_requests user profile requestId a
              now_update now_insert gen_random_uuid db) as [-> | ->]; [done|].
  destruct (find_row requestId (db_requests db)) as [OLD|] eqn:Hfind.
  2: { unfold update_request. by rewrite Hfind. }
  destruct (decide (can_update_request (db_profiles db) user OLD)) as [Hcan|Hcan].
  2: { unfold update_request. rewrite Hfind. by rewrite decide_False. }
  destruct (decide (status OLD = "pending"%string)) as [Hp|Hp].
  { by eapply decision_restores_queue. }
  apply (queue_reads_pending_rows (db_requests db)); [|done].
  unfold update_request. rewrite Hfind, decide_True by done. simpl.
  rewrite maintainer_sleeps_between_terminal_states
    by (done || apply decision_text_not_pending).
  simpl. apply find_row_Some in Hfind as [Hold Hid].
  eapply filter_pending_replace_terminal; eauto.
  apply decision_text_not_pending.
Qed.

Lemma decision_keeps_queue_witness :
  primary_key (db_requests Scenario.three)
  ∧ dense (db_requests Scenario.three) ∧ ordered (db_requests Scenario.three)
  ∧ dense (db_requests Scenario.decided)
  ∧ ordered (db_requests Scenario.decided).
Proof.
  assert (primary_key (db_requests Scenario.three)) as Hpk by by_computation.
  assert (dense (db_requests Scenario.three)) as Hd by by_computation.
  assert (ordered (db_requests Scenario.three)) as Ho.
  { apply (latest_insert_keeps_queue (Some "alice"%string) 2 "r3"
             (mk_insert None (Some "alice") (Some "R3") (Some "") (Some "Sales")
                        (Some "pending") None None None)%string
             (Scenario.submit Scenario.bob "R2" 1 "r2"
                (Scenario.submit Scenario.alice "R1" 0 "r1" Scenario.empty)));
      [by_computation | reflexivity | reflexivity |].
    apply (proj1 (Forall_forall
             (λ r, status r = "pending"%string → created_at r < 2) _)).
    by_computation. }
  split_and!; [exact Hpk | exact Hd | exact Ho | |];
    apply (decision_keeps_queue (Some "carol"%string) (Some Scenario.carol)
             "r2" approved 10 11 "a1" Scenario.three Hpk Hd Ho).
Defined.

Lemma find_row_replace_row requestId NEW tbl :
  requestId ∈ id <$> tbl → id NEW = requestId →
  find_row requestId (replace_row requestId NEW tbl) = Some NEW.
Proof.
  intros Hin Hid. unfold find_row, replace_row.
  induction tbl as [|r tbl IH]; [by apply not_elem_of_nil in Hin|].
  csimpl. destruct (decide (id r = requestId)) as [E|E].
  - by rewrite decide_True.
  - rewrite decide_False by done.
    apply elem_of_cons in Hin as [?|Hin]; [done|].
    specialize (IH Hin). apply fmap_Some in IH as ([i x] & Hf & ->).
    by rewrite Hf.
Qed.

Lemma run_new_status ev NEW now tbl :
  status (run_new (update_queue_positions ev NEW now tbl)) = status NEW.
Proof. unfold update_queue_positions. by repeat case_decide. Qed.

(** The row an UPDATE of the status leaves under the identifier it named. *)
Lemma decided_row_is_found uid now (a : decision) requestId db OLD :
  primary_key (db_requests db) →
  find_row requestId (db_requests db) = Some OLD →
  can_update_request (db_profiles db) uid OLD →
  status <$> find_row requestId
               (db_requests (update_request uid now (status_update a)
                                            requestId db).1)
  = Some (decision_text a).
Proof.
  intros Hpk Hfind Hcan. unfold update_request. rewrite Hfind.
  apply find_row_Some in Hfind as [Hold Hid].
  rewrite decide_True by done. simpl.
  rewrite find_row_replace_row.
  - simpl. by rewrite run_new_status.
  - rewrite run_table_ids, <-Hid. by apply list_elem_of_fmap_2.
  - by rewrite run_new_id.
Qed.

(** X5. A decision of an approver on a pending request, end to end. The
    handler reports the decision, the request carries it, one approval
    action signed by the approver is appended, and the requests still
    pending hold the positions 1..n in creation order, whatever the
    positions were before. *)
Theorem approver_decides_pending
    (p : profiles.row) requestId (a : decision)
    (now_update now_insert : timestamptz) (gen_random_uuid : uuid) db OLD :
  primary_key (db_requests db) →
  find_row requestId (db_requests db) = Some OLD →
  status OLD = "pending"%string →
  p ∈ db_profiles db →
  profiles.role p = "approver"%string ∨ profiles.role p = "admin"%string →
  gen_random_uuid ∉ approval_actions.id <$> db_actions db →
  ∃ db',
    handleApprovalAction (Some (profiles.id p)) (Some p) requestId a
                         now_update now_insert gen_random_uuid db
    = (db', toast_decided a)
    ∧ status <$> find_row requestId (db_requests db') = Some (decision_text a)
    ∧ db_actions db'
      = db_actions db
        ++ [approval_actions.mk gen_random_uuid requestId (profiles.id p)
              (decision_text a)
              (act_comment (action_record requestId (profiles.id p) a))
              now_insert]
    ∧ dense (db_requests db') ∧ ordered (db_requests db').
Proof.
  intros Hpk Hfind Hst Hp Hrole Hfresh.
  pose proof (is_approver_intro _ _ Hp Hrole) as Happ.
  assert (can_update_request (db_profiles db) (Some (profiles.id p)) OLD)
    as Hcan by by right.
  pose proof (decision_restores_queue (Some (profiles.id p)) now_update a
                requestId db OLD Hpk Hfind Hst Hcan) as Hqueue.
  pose proof (decided_row_is_found (Some (profiles.id p)) now_update a
                requestId db OLD Hpk Hfind Hcan) as Hrow.
  pose proof (update_request_ids (Some (profiles.id p)) now_update
                (status_update a) requestId db) as Hids.
  assert (db_profiles (update_request (Some (profiles.id p)) now_update
                         (status_update a) requestId db).1 = db_profiles db
          ∧ db_actions (update_request (Some (profiles.id p)) now_update
                          (status_update a) requestId db).1 = db_actions db)
    as [Hps Hacts].
  { unfold update_request. by repeat case_match. }
  unfold handleApprovalAction.
  rewrite decide_False by (destruct Hrole as [-> | ->]; intros [? ?]; done).
  simpl. unfold insert_action. simpl.
  rewrite Hps, Hacts, Hids.
  rewrite decide_True by (by apply can_insert_action_intro).
  rewrite decide_False by done.
  apply find_row_Some in Hfind as [Hold Hid].
  rewrite decide_True by (rewrite <-Hid; by apply list_elem_of_fmap_2).
  eexists. split; [reflexivity|]. simpl. destruct Hqueue. by split_and!.
Qed.

Lemma approver_decides_pending_witness :
  ∃ OLD db',
    primary_key (db_requests Scenario.three)
    ∧ find_row "r2" (db_requests Scenario.three) = Some OLD
    ∧ status OLD = "pending"%string
    ∧ Scenario.carol ∈ db_profiles Scenario.three
    ∧ ("a1"%string ∉ approval_actions.id <$> db_actions Scenario.three)
    ∧ handleApprovalAction (Some "carol"%string) (Some Scenario.carol) "r2"
                           approved 10 11 "a1" Scenario.three
      = (db', toast_decided approved)
    ∧ dense (db_requests db') ∧ ordered (db_requests db').
Proof.
  assert (primary_key (db_requests Scenario.three)) as Hpk by by_computation.
  assert (Scenario.carol ∈ db_profiles Scenario.three) as Hp by by_computation.
  assert ("a1"%string ∉ approval_actions.id <$> db_actions Scenario.three)
    as Hfresh by by_computation.
  destruct (approver_decides_pending Scenario.carol "r2" approved 10 11 "a1"
              Scenario.three
              (mk "r2" "bob" "R2" (Some "") "Sales" "pending" (Some 2) 1 1)%string
              Hpk eq_refl eq_refl Hp (or_introl eq_refl) Hfresh)
    as (db' & Hout & _ & _ & Hd & Ho).
  eexists _, db'.
  split_and!; [exact Hpk | reflexivity | reflexivity | exact Hp | exact Hfresh
              | exact Hout | exact Hd | exact Ho].
Defined.

(** X6. A submission and the queue. With a signed-in user, a profile and a
    fresh identifier, [handleSubmit] stores the request and reports
    success; the pending positions are then the dense range exactly when
    every request that was pending is older than the transaction, and in
    that case they are in creation order too. *)
Theorem submission_and_queue
    (user : uuid) (p : profiles.row) (t c : string) now
    (gen_random_uuid : uuid) db :
  primary_key (db_requests db) →
  gen_random_uuid ∉ id <$> db_requests db →
  ∃ db',
    handleSubmit (Some user) (Some p) t c now gen_random_uuid db
    = (db', Some toast_submitted)
    ∧ (dense (db_requests db')
       ↔ ∀ r, r ∈ db_requests db → status r = "pending"%string →
              created_at r < now)
    ∧ ((∀ r, r ∈ db_requests db → status r = "pending"%string →
             created_at r < now) →
       ordered (db_requests db')).
Proof.
  intros Hpk Hfresh. unfold handleSubmit.
  destruct (insert_request_accepts now gen_random_uuid
              (mk_insert None (Some user) (Some t) (Some c)
                 (Some (profiles.department p)) (Some "pending"%string)
                 None None None) db user) as [db' Hok]; [done|eauto..|done|].
  rewrite Hok. exists db'. split_and!; [done| |].
  - by apply (insert_dense_iff_latest _ _ _ _ _ _ Hpk Hok).
  - intros Hlate.
    by apply (latest_insert_keeps_queue _ _ _ _ _ _ Hpk Hok).
Qed.

Lemma submission_and_queue_witness :
  primary_key (db_requests Scenario.one)
  ∧ ("r2"%string ∉ id <$> db_requests Scenario.one)
  ∧ ∃ db',
      handleSubmit (Some "bob"%string) (Some Scenario.bob) "R2" "" 6 "r2"
                   Scenario.one
      = (db', Some toast_submitted)
      ∧ dense (db_requests db') ∧ ordered (db_requests db').
Proof.
  assert (primary_key (db_requests Scenario.one)) as Hpk by by_computation.
  assert ("r2"%string ∉ id <$> db_requests Scenario.one) as Hfresh
    by by_computation.
  split_and!; [exact Hpk | exact Hfresh |].
  destruct (submission_and_queue "bob" Scenario.bob "R2" "" 6 "r2"
              Scenario.one Hpk Hfresh) as (db' & Hout & Hiff & Hord).
  assert (∀ r, r ∈ db_requests Scenario.one → status r = "pending"%string →
               created_at r < 6) as Hlate.
  { apply (proj1 (Forall_forall
             (λ r, status r = "pending"%string → created_at r < 6) _)).
    by_computation. }
  exists db'. split_and!; [exact Hout | by apply Hiff | by apply Hord].
Defined.

(** ** Bounds of the positions *)

(** The pending positions after an insert: 1..n for the requests that were
    pending, and 1 + the count of the earlier ones for the new request. *)
Lemma pending_positions_after_insert NEW now tbl :
  primary_key tbl → status NEW = "pending"%string →
  pending_positions
    ((reposition now (ranked_requests TG_INSERT NEW tbl) <$> tbl)
     ++ [set_queue_position (Some (count_earlier NEW tbl + 1)) NEW])
  ≡ₚ Some (count_earlier NEW tbl + 1)
     :: (Some <$> seqZ 1 (Z.of_nat (length (pending_positions tbl)))).
Proof.
  intros Hpk Hp. unfold pending_positions at 1.
  rewrite pending_after_insert by done.
  rewrite fmap_app. simpl. rewrite <-Permutation_cons_append.
  apply perm_skip. rewrite <-(in_scope_insert_length NEW).
  by apply recompute_positions.
Qed.

Lemma count_earlier_bounds NEW tbl :
  0 ≤ count_earlier NEW tbl ≤ Z.of_nat (length (pending_positions tbl)).
Proof.
  unfold count_earlier, pending_positions. rewrite length_fmap.
  rewrite <-(list_filter_filter_l
               (λ r, status r = "pending"%string ∧ created_at r < created_at NEW)
               (λ r, status r = "pending"%string)) by tauto.
  pose proof (length_filter
                (λ r, status r = "pending"%string ∧ created_at r < created_at NEW)
                (filter (λ r, status r = "pending"%string) tbl)).
  lia.
Qed.

(** X7. The positions stay within bounds. After an accepted insert of a
    pending request every pending request has a position between 1 and the
    number of pending requests, also when the new request is not the latest
    and two requests end up sharing a position. *)
Theorem insert_positions_in_range
    uid now (gen_random_uuid : uuid) (v : insert_values) db db' :
  primary_key (db_requests db) →
  insert_request uid now gen_random_uuid v db = ok db' →
  default "pending"%string (ins_status v) = "pending"%string →
  ∀ r, r ∈ db_requests db' → status r = "pending"%string →
    ∃ p, queue_position r = Some p
         ∧ 1 ≤ p ≤ Z.of_nat (length (pending_positions (db_requests db'))).
Proof.
  intros Hpk Hins Hst r Hr Hp.
  destruct (insert_request_ok _ _ _ _ _ _ Hins Hst) as (NEW & HpN & _ & E).
  rewrite E in Hr |- *. clear E Hins Hst.
  pose proof (pending_positions_after_insert NEW now (db_requests db) Hpk HpN)
    as Hpos.
  pose proof (count_earlier_bounds NEW (db_requests db)) as Hk.
  assert (queue_position r
          ∈ Some (count_earlier NEW (db_requests db) + 1)
            :: (Some <$> seqZ 1 (Z.of_nat
                                   (length (pending_positions (db_requests db))))))
    as Hin.
  { rewrite <-Hpos. unfold pending_positions.
    apply list_elem_of_fmap_2. by apply list_elem_of_filter. }
  rewrite (Permutation_length Hpos). simpl.
  rewrite length_fmap, length_seqZ, Nat2Z.id.
  apply elem_of_cons in Hin as [->|Hin].
  - eexists. split; [done|]. lia.
  - apply list_elem_of_fmap in Hin as (q & -> & Hq).
    apply elem_of_seqZ in Hq. exists q. split; [done|]. lia.
Qed.

Lemma insert_positions_in_range_witness :
  ∃ db',
    primary_key (db_requests Scenario.one)
    ∧ insert_request (Some "bob"%string) 6 "r2" Scenario.backdated Scenario.one
      = ok db'
    ∧ ∀ r, r ∈ db_requests db' → status r = "pending"%string →
        ∃ p, queue_position r = Some p ∧ 1 ≤ p ≤ 2.
Proof.
  assert (primary_key (db_requests Scenario.one)) as Hpk by by_computation.
  eexists. split; [exact Hpk|]. split; [reflexivity|].
  exact (insert_positions_in_range (Some "bob"%string) 6 "r2"
           Scenario.backdated Scenario.one _ Hpk eq_refl eq_refl).
Defined.

(** ** Decisions the store refuses, in whole or in part *)

Lemma find_row_None requestId tbl :
  find_row requestId tbl = None → requestId ∉ id <$> tbl.
Proof.
  unfold find_row. intros Hf%fmap_None.
  apply list_find_None in Hf.
  intros (r & -> & Hr)%list_elem_of_fmap.
  by eapply (proj1 (Forall_forall _ _) Hf).
Qed.

(** X8. A decision the store refuses changes nothing. When the profile the
    client holds passes the check of the handler but the request named does
    not exist, or the policies hide it from the caller, the update writes
    no row, the insert of the approval action fails, and the handler
    reports a failure with the store as it was. *)
Theorem refused_decision_changes_nothing
    (user : uuid) (p : profiles.row) requestId (a : decision)
    (now_update now_insert : timestamptz) (gen_random_uuid : uuid) db :
  profiles.role p = "approver"%string ∨ profiles.role p = "admin"%string →
  (∀ OLD, find_row requestId (db_requests db) = Some OLD →
          ¬ can_update_request (db_profiles db) (Some user) OLD) →
  handleApprovalAction (Some user) (Some p) requestId a
                       now_update now_insert gen_random_uuid db
  = (db, toast_processing_failed).
Proof.
  intros Hrole Hhidden. unfold handleApprovalAction.
  rewrite decide_False by (destruct Hrole as [-> | ->]; intros [? ?]; done).
  assert (update_request (Some user) now_update (status_update a) requestId db
          = (db, None)) as ->.
  { unfold update_request.
    destruct (find_row requestId (db_requests db)) as [OLD|] eqn:Hfind; [|done].
    by rewrite decide_False by by apply Hhidden. }
  simpl. unfold insert_action. simpl.
  case_decide as Hrls; [|done].
  destruct (find_row requestId (db_requests db)) as [OLD|] eqn:Hfind.
  - destruct (Hhidden OLD eq_refl). right. apply Hrls.
  - case_decide; [done|].
    by rewrite decide_False by by apply find_row_None.
Qed.

Lemma refused_decision_changes_nothing_witness :
  handleApprovalAction (Some "carol"%string) (Some Scenario.carol) "r9"
                       approved 10 11 "a1" Scenario.three
  = (Scenario.three, toast_processing_failed).
Proof.
  apply (refused_decision_changes_nothing "carol" Scenario.carol "r9" approved
           10 11 "a1" Scenario.three (or_introl eq_refl)).
  intros OLD Hfind. discriminate Hfind.
Defined.

(** X9. A decision can go through by half. The check of the handler reads
    the profile the client holds, the store reads the profiles table. When
    the two disagree (the client holds an approver profile, the table has
    none for the user) and the user submitted the request, the update
    passes under "Users can update their own requests" and the insert of
    the approval action is refused: the request is decided, no action
    records it, and the handler reports a failure. *)
Theorem own_request_decided_without_action
    (user : uuid) (p : profiles.row) requestId (a : decision)
    (now_update now_insert : timestamptz) (gen_random_uuid : uuid) db OLD :
  primary_key (db_requests db) →
  find_row requestId (db_requests db) = Some OLD →
  user_id OLD = user →
  profiles.role p = "approver"%string ∨ profiles.role p = "admin"%string →
  ¬ is_approver (db_profiles db) (Some user) →
  ∃ db',
    handleApprovalAction (Some user) (Some p) requestId a
                         now_update now_insert gen_random_uuid db
    = (db', toast_processing_failed)
    ∧ status <$> find_row requestId (db_requests db') = Some (decision_text a)
    ∧ db_actions db' = db_actions db.
Proof.
  intros Hpk Hfind Hown Hrole Hnot.
  assert (can_update_request (db_profiles db) (Some user) OLD) as Hcan.
  { left. by rewrite Hown. }
  pose proof (decided_row_is_found (Some user) now_update a requestId db OLD
                Hpk Hfind Hcan) as Hrow.
  assert (db_profiles (update_request (Some user) now_update
                         (status_update a) requestId db).1 = db_profiles db
          ∧ db_actions (update_request (Some user) now_update
                          (status_update a) requestId db).1 = db_actions db)
    as [Hps Hacts].
  { unfold update_request. by repeat case_match. }
  unfold handleApprovalAction.
  rewrite decide_False by (destruct Hrole as [-> | ->]; intros [? ?]; done).
  simpl. unfold insert_action. simpl. rewrite Hps.
  rewrite decide_False by (intros (_ & _ & ?); done).
  eexists. by split_and!.
Qed.

Lemma own_request_decided_without_action_witness :
  ∃ OLD db',
    primary_key (db_requests Scenario.three)
    ∧ find_row "r1" (db_requests Scenario.three) = Some OLD
    ∧ user_id OLD = "alice"%string
    ∧ ¬ is_approver (db_profiles Scenario.three) (Some "alice"%string)
    ∧ handleApprovalAction (Some "alice"%string) (Some Scenario.carol) "r1"
                           approved 10 11 "a1" Scenario.three
      = (db', toast_processing_failed)
    ∧ status <$> find_row "r1" (db_requests db') = Some "approved"%string
    ∧ db_actions db' = [].
Proof.
  assert (primary_key (db_requests Scenario.three)) as Hpk by by_computation.
  assert (¬ is_approver (db_profiles Scenario.three) (Some "alice"%string))
    as Hnot by by_computation.
  destruct (own_request_decided_without_action "alice" Scenario.carol "r1"
              approved 10 11 "a1" Scenario.three
              (mk "r1" "alice" "R1" (Some "") "Sales" "pending" (Some 1) 0 0)%string
              Hpk eq_refl eq_refl (or_introl eq_refl) Hnot)
    as (db' & Hout & Hrow & Hacts).
  eexists _, db'.
  split_and!; [exact Hpk | reflexivity | reflexivity | exact Hnot | exact Hout
              | exact Hrow | exact Hacts].
Defined.

(** ** Profiles and roles *)

(** X10. The role function and the policies agree. Where the profiles have
    their primary key, the condition the policies spell out (a profile of
    the caller with role 'approver' or 'admin' exists) holds exactly when
    [get_current_user_role] returns one of the two roles. *)
Theorem role_function_agrees_with_policies (ps : list profiles.row) uid :
  NoDup (profiles.id <$> ps) →
  is_approver ps uid
  ↔ get_current_user_role ps uid = Some "approver"%string
    ∨ get_current_user_role ps uid = Some "admin"%string.
Proof.
  intros Hpk. unfold is_approver, get_current_user_role.
  rewrite Exists_exists. split.
  - intros (p & Hp & Hid & Hrole).
    destruct (list_find _ ps) as [[i q]|] eqn:Hq.
    2: { apply list_find_None in Hq.
         by destruct (proj1 (Forall_forall _ _) Hq p Hp). }
    simpl. apply list_find_Some in Hq as (Hi & Hidq & _).
    assert (q = p) as ->; [|by destruct Hrole as [-> | ->]; auto].
    apply list_elem_of_lookup in Hp as [j Hj].
    assert (i = j) as ->; [|congruence].
    eapply (NoDup_lookup _ _ _ _ Hpk); rewrite list_lookup_fmap.
    + by rewrite Hi.
    + rewrite Hj. simpl. congruence.
  - intros Hrole.
    destruct (list_find _ ps) as [[i q]|] eqn:Hq; [|by destruct Hrole].
    apply list_find_Some in Hq as (Hi & Hidq & _).
    exists q. split; [by eapply list_elem_of_lookup_2|]. split; [done|].
    simpl in Hrole. destruct Hrole as [[= ->] | [= ->]]; auto.
Qed.

Lemma role_function_agrees_with_policies_witness :
  NoDup (profiles.id <$> db_profiles Scenario.three)
  ∧ get_current_user_role (db_profiles Scenario.three) (Some "carol"%string)
    = Some "approver"%string
  ∧ is_approver (db_profiles Scenario.three) (Some "carol"%string).
Proof.
  assert (NoDup (profiles.id <$> db_profiles Scenario.three)) as Hpk
    by by_computation.
  split_and!; [exact Hpk | reflexivity |].
  apply (role_function_agrees_with_policies _ _ Hpk). by left.
Defined.

(** X11. Signing up grants nothing. The profile [handle_new_user] creates
    has the role 'employee', whatever the account's metadata says, and who
    holds the approver or admin role is the same after the sign-up as
    before. *)
Theorem sign_up_grants_nothing
    (NEW_id : uuid) (meta_name meta_department : option string) now db db' :
  handle_new_user NEW_id meta_name meta_department now db = ok db' →
  get_current_user_role (db_profiles db') (Some NEW_id) = Some "employee"%string
  ∧ (∀ uid, is_approver (db_profiles db') uid ↔ is_approver (db_profiles db) uid)
  ∧ db_requests db' = db_requests db ∧ db_actions db' = db_actions db.
Proof.
  unfold handle_new_user. case_decide as Hfresh; [done|].
  intros [= <-]. simpl. split_and!; [| |done..].
  - unfold get_current_user_role. rewrite list_find_app_r.
    + simpl. by rewrite decide_True.
    + apply list_find_None, Forall_forall. intros q Hq [= E].
      apply Hfresh. rewrite E. by apply list_elem_of_fmap_2.
  - intros uid. unfold is_approver. rewrite Exists_app, Exists_cons, Exists_nil.
    simpl. split; [|tauto].
    intros [?|[[_ [?|?]]|[]]]; done.
Qed.

Lemma sign_up_grants_nothing_witness :
  ∃ db',
    handle_new_user "dave" (Some "Dave"%string) None 7 Scenario.three = ok db'
    ∧ get_current_user_role (db_profiles db') (Some "dave"%string)
      = Some "employee"%string
    ∧ ¬ is_approver (db_profiles db') (Some "dave"%string).
Proof.
  eexists. split; [reflexivity|].
  destruct (sign_up_grants_nothing "dave" (Some "Dave"%string) None 7
              Scenario.three _ eq_refl) as (Hrole & Hsame & _).
  split; [exact Hrole|].
  intros Happ%Hsame. revert Happ. by_computation.
Defined.

(** X12. The role of another user cannot be changed. Under "Users can update
    their own profile" the UPDATE of [updateUserRole] sees the profile of
    the caller only: for any other user it writes nothing, also when the
    caller is an admin, and the handler reports the change as done. *)
Theorem role_change_of_another_user_is_lost
    uid now (userId : uuid) (newRole : string) db :
  uid ≠ Some userId →
  Admin.updateUserRole uid now userId newRole db = (db, Admin.role_changed).
Proof.
  intros Hne. unfold Admin.updateUserRole, update_profile_role. f_equal.
  destruct db as [ps reqs acts]. simpl. f_equal.
  transitivity (Datatypes.id <$> ps); [|apply list_fmap_id].
  apply list_fmap_ext. intros i p Hp. simpl.
  rewrite decide_False; [done|].
  unfold can_update_profile. intros [E ->]. congruence.
Qed.

Lemma role_change_of_another_user_is_lost_witness :
  Admin.updateUserRole (Some "carol"%string) 9 "alice" "approver" Scenario.three
  = (Scenario.three, Admin.role_changed).
Proof.
  apply role_change_of_another_user_is_lost. discriminate.
Defined.

(** X13. Every user can take a role. The same policy lets a user update the
    own profile, its role included: after a user sets the own role to
    'approver' or 'admin' the store counts the user as an approver, so the
    update policy of the requests admits the user for every request. *)
Theorem user_promotes_self
    (p : profiles.row) now (newRole : string) db :
  p ∈ db_profiles db →
  newRole = "approver"%string ∨ newRole = "admin"%string →
  is_approver
    (db_profiles (Admin.updateUserRole (Some (profiles.id p)) now
                    (profiles.id p) newRole db).1)
    (Some (profiles.id p))
  ∧ ∀ r, can_update_request
           (db_profiles (Admin.updateUserRole (Some (profiles.id p)) now
                           (profiles.id p) newRole db).1)
           (Some (profiles.id p)) r.
Proof.
  intros Hp Hrole.
  assert (is_approver
            (db_profiles (Admin.updateUserRole (Some (profiles.id p)) now
                            (profiles.id p) newRole db).1)
            (Some (profiles.id p))) as Happ.
  { unfold is_approver. simpl. apply Exists_exists.
    exists (profiles.mk (profiles.id p) (profiles.name p)
                        (profiles.department p) newRole
                        (profiles.created_at p) now).
    split; [|by simpl].
    apply list_elem_of_fmap. exists p. split; [|done].
    by rewrite decide_True. }
  split; [done|]. intros r. by right.
Qed.

Lemma user_promotes_self_witness :
  Scenario.alice ∈ db_profiles Scenario.three
  ∧ ¬ is_approver (db_profiles Scenario.three) (Some "alice"%string)
  ∧ is_approver
      (db_profiles (Admin.updateUserRole (Some "alice"%string) 9 "alice"
                      "admin" Scenario.three).1)
      (Some "alice"%string).
Proof.
  assert (Scenario.alice ∈ db_profiles Scenario.three) as Hp by by_computation.
  split_and!; [exact Hp | by_computation |].
  apply (user_promotes_self Scenario.alice 9 "admin" Scenario.three Hp).
  by right.
Defined.

(** ** The queue on the screen *)

Lemma StronglySorted_filter {A} (R : relation A) (P : A → Prop)
    `{!∀ x, Decision (P x)} (l : list A) :
  StronglySorted R l → StronglySorted R (filter P l).
Proof.
  induction 1 as [|x l Hs IH Hall]; [constructor|].
  rewrite filter_cons. case_decide; [|done].
  constructor; [done|].
  apply Forall_forall. intros y [_ Hy]%list_elem_of_filter.
  by eapply Forall_forall in Hall.
Qed.

Lemma seqZ_sorted (m : Z) (k : nat) :
  StronglySorted ApprovalQueue.nulls_last (Some <$> seqZ m (Z.of_nat k)).
Proof.
  revert m. induction k as [|k IH]; intros m; [constructor|].
  rewrite seqZ_cons by lia. csimpl.
  replace (Z.pred (Z.of_nat (S k))) with (Z.of_nat k) by lia.
  constructor; [apply IH|].
  apply Forall_fmap, Forall_forall. intros x Hx%elem_of_seqZ. simpl. lia.
Qed.

(** The pending requests of the fetched list, by their positions: the
    pending positions of the table, sorted. *)
Lemma fetched_pending_positions db :
  dense (db_requests db) →
  queue_position
  <$> filter (λ r, status r = "pending"%string)
             (merge_sort ApprovalQueue.position_le (db_requests db))
  = Some <$> seqZ 1 (Z.of_nat (length (pending_positions (db_requests db)))).
Proof.
  intros Hd. apply (StronglySorted_unique ApprovalQueue.nulls_last).
  - apply (StronglySorted_fmap _ ApprovalQueue.position_le); [done|].
    apply StronglySorted_filter, StronglySorted_merge_sort; apply _.
  - apply seqZ_sorted.
  - etrans; [|exact Hd]. unfold pending_positions.
    apply fmap_Permutation, filter_Permutation, merge_sort_Permutation.
Qed.

(** X14. The badges of the queue. When the pending positions of the table
    are the dense range, the cards of the pending requests come in the
    order of their positions and carry the badges 1, 2, ..., n, each the
    [queue_position] of its request. *)
Theorem queue_badges db :
  dense (db_requests db) →
  ApprovalQueue.badges (ApprovalQueue.fetchRequests db)
  = seqZ 1 (Z.of_nat (length (pending_positions (db_requests db))))
  ∧ (queue_position ∘ ApprovalQueue.request)
    <$> ApprovalQueue.pendingRequests (ApprovalQueue.fetchRequests db)
    = Some <$> ApprovalQueue.badges (ApprovalQueue.fetchRequests db).
Proof.
  intros Hd. pose proof (fetched_pending_positions db Hd) as Hpos.
  unfold ApprovalQueue.badges, ApprovalQueue.pendingRequests,
    ApprovalQueue.fetchRequests.
  rewrite filter_fmap.
  set (shown := filter _ (merge_sort ApprovalQueue.position_le (db_requests db)))
    in *.
  assert (∀ i r, shown !! i = Some r →
                 queue_position r = Some (1 + Z.of_nat i)
                 ∧ Z.of_nat i
                   < Z.of_nat (length (pending_positions (db_requests db))))
    as Hshown.
  { intros i r Hi.
    assert ((queue_position <$> shown) !! i = Some (queue_position r)) as Hq
      by by rewrite list_lookup_fmap, Hi.
    rewrite Hpos, list_lookup_fmap in Hq.
    apply fmap_Some in Hq as (q & Hq & ->).
    apply lookup_seqZ in Hq as [-> ?]. done. }
  assert (imap ApprovalQueue.badge
            ((λ r, ApprovalQueue.mk_request r
                     (ApprovalQueue.single_name (db_profiles db) (user_id r)))
             <$> shown)
          = seqZ 1 (Z.of_nat (length (pending_positions (db_requests db)))))
    as Hbadges.
  { apply list_eq. intros i. rewrite list_lookup_imap, list_lookup_fmap.
    destruct (shown !! i) as [r|] eqn:Hi; simpl.
    - destruct (Hshown i r Hi) as [Hq Hlt].
      unfold ApprovalQueue.badge. simpl. rewrite Hq.
      rewrite decide_False by lia. by rewrite lookup_seqZ_lt.
    - rewrite lookup_seqZ_ge; [done|].
      apply lookup_ge_None in Hi.
      assert (length shown = length (pending_positions (db_requests db))) as <-.
      { by rewrite <-(length_fmap queue_position shown), Hpos,
           length_fmap, length_seqZ, Nat2Z.id. }
      lia. }
  split; [exact Hbadges|].
  rewrite Hbadges, <-Hpos, <-list_fmap_compose. done.
Qed.

Lemma queue_badges_witness :
  dense (db_requests Scenario.decided)
  ∧ ApprovalQueue.badges (ApprovalQueue.fetchRequests Scenario.decided) = [1; 2]
  ∧ (id ∘ ApprovalQueue.request)
    <$> ApprovalQueue.pendingRequests (ApprovalQueue.fetchRequests Scenario.decided)
    = ["r1"; "r3"]%string.
Proof.
  assert (dense (db_requests Scenario.decided)) as Hd by by_computation.
  split_and!; [exact Hd | | reflexivity].
  by destruct (queue_badges Scenario.decided Hd) as [-> _].
Defined.

(** ** The trigger of the earlier migrations *)

Lemma ranked_requests_v1_insert NEW tbl :
  ranked_requests_v1 tbl = ranked_requests TG_INSERT NEW tbl.
Proof.
  unfold ranked_requests_v1, ranked_requests, candidates. do 3 f_equal.
  apply list_filter_iff. intros r. unfold in_scope. simpl. tauto.
Qed.

Lemma rank_all_lookup now tbl r' :
  r' ∈ rank_all now tbl →
  ∃ r, r ∈ tbl
    ∧ r' = match new_position (ranked_requests_v1 tbl) (id r) with
           | Some p => update_updated_at_column now (set_queue_position (Some p) r)
           | None => r
           end
    ∧ id r' = id r ∧ status r' = status r ∧ created_at r' = created_at r.
Proof.
  intros (r & -> & Hr)%list_elem_of_fmap. exists r.
  split_and!; try done; by destruct (new_position _ _).
Qed.



(** ** Whose request a card is *)

(** With a primary key on the profiles, the lookup of a name by identifier
    finds the profile with that identifier. *)
Lemma single_name_found (ps : list profiles.row) (p : profiles.row) :
  NoDup (profiles.id <$> ps) → p ∈ ps →
  ApprovalQueue.single_name ps (profiles.id p) = Some (profiles.name p).
Proof.
  intros Hnd Hp. unfold ApprovalQueue.single_name.
  enough (filter (λ q, profiles.id q = profiles.id p) ps = [p]) as -> by done.
  induction ps as [|q ps IH]; [by apply not_elem_of_nil in Hp|].
  csimpl in Hnd. apply NoDup_cons in Hnd as [Hq Hnd].
  rewrite filter_cons. apply elem_of_cons in Hp as [->|Hp].
  - rewrite decide_True by done. f_equal.
    apply filter_none. intros x Hx E. apply Hq. rewrite <-E.
    by apply list_elem_of_fmap_2.
  - rewrite decide_False; [by apply IH|].
    intros E. apply Hq. rewrite E. by apply list_elem_of_fmap_2.
Qed.

Lemma single_name_Some (ps : list profiles.row) (usr : uuid) (n : string) :
  ApprovalQueue.single_name ps usr = Some n →
  ∃ q, q ∈ ps ∧ profiles.id q = usr ∧ profiles.name q = n.
Proof.
  unfold ApprovalQueue.single_name.
  destruct (filter _ ps) as [|q [|??]] eqn:Hf; try done.
  intros [= <-]. exists q.
  assert (q ∈ filter (λ p, profiles.id p = usr) ps) as Hq
    by (rewrite Hf; left).
  apply list_elem_of_filter in Hq as [??]. done.
Qed.

(** X17. [isMyRequest] by name. When the profiles have distinct identifiers
    and distinct names, the card test of ApprovalQueue.tsx, which compares
    the name looked up for the submitter with the name of the viewer,
    agrees on every fetched request with the test of the other version of
    the component, which compares identifiers. *)
Theorem isMyRequest_by_name db (p : profiles.row) req :
  NoDup (profiles.id <$> db_profiles db) →
  NoDup (profiles.name <$> db_profiles db) →
  p ∈ db_profiles db →
  req ∈ ApprovalQueue.fetchRequests db →
  ApprovalQueue.isMyRequest (Some (profiles.id p)) (Some p) req
  = ApprovalQueue.isMyRequest_by_id (Some (profiles.id p)) req.
Proof.
  intros Hids Hnames Hp (r & -> & _)%list_elem_of_fmap.
  unfold ApprovalQueue.isMyRequest, ApprovalQueue.isMyRequest_by_id. simpl.
  destruct (ApprovalQueue.single_name (db_profiles db) (user_id r))
    as [n|] eqn:Hn.
  - apply single_name_Some in Hn as (q & Hq & Hid & <-).
    apply bool_decide_ext. rewrite <-Hid. split.
    + intros E. f_equal.
      apply list_elem_of_lookup in Hq as [i Hi].
      apply list_elem_of_lookup in Hp as [j Hj].
      assert (i = j) as ->; [|congruence].
      eapply NoDup_lookup; [exact Hnames| |];
        rewrite list_lookup_fmap; [by rewrite Hi|by rewrite Hj, E].
    + intros E.
      apply list_elem_of_lookup in Hq as [i Hi].
      apply list_elem_of_lookup in Hp as [j Hj].
      assert (i = j) as ->; [|congruence].
      eapply NoDup_lookup; [exact Hids| |];
        rewrite list_lookup_fmap; [by rewrite Hi|by rewrite Hj, E].
  - symmetry. apply bool_decide_eq_false. intros E.
    rewrite E, (single_name_found _ _ Hids Hp) in Hn. done.
Qed.

Lemma isMyRequest_by_name_witness :
  Forall (λ req,
    ApprovalQueue.isMyRequest (Some "bob"%string) (Some Scenario.bob) req
    = ApprovalQueue.isMyRequest_by_id (Some "bob"%string) req)
    (ApprovalQueue.fetchRequests Scenario.three).
Proof.
  apply Forall_forall. intros req Hreq.
  apply (isMyRequest_by_name Scenario.three Scenario.bob req);
    [by_computation | by_computation | by_computation | exact Hreq].
Defined.

(** X19. The buttons and the handler. The queue page offers the two
    decision buttons under [canApprove]; for a signed-in user that is
    exactly when [handleApprovalAction] does not answer with the notice of
    a missing permission. *)
Theorem buttons_match_handler
    (usr : uuid) profile requestId (a : decision)
    (now_update now_insert : timestamptz) (gen_random_uuid : uuid) db :
  ApprovalQueue.canApprove profile = true
  ↔ (handleApprovalAction (Some usr) profile requestId a
       now_update now_insert gen_random_uuid db).2 ≠ toast_no_permission.
Proof.
  unfold ApprovalQueue.canApprove, handleApprovalAction.
  destruct profile as [p|]; [|done].
  rewrite bool_decide_eq_true. case_decide as Hrole; simpl.
  - split; [|done]. intros [E|E]; destruct Hrole; congruence.
  - split; [intros _; by destruct (insert_action _ _ _ _ _)|].
    intros _. destruct (decide (profiles.role p = "approver"%string)); [tauto|].
    destruct (decide (profiles.role p = "admin"%string)); tauto.
Qed.

(** ** The statuses in the table *)

Lemma update_request_statuses uid now (a : decision) requestId db :
  statuses_known (db_requests db) →
  statuses_known
    (db_requests (update_request uid now (status_update a) requestId db).1).
Proof.
  intros Hk. unfold update_request.
  destruct (find_row requestId (db_requests db)) as [OLD|]; [|done].
  case_decide; [|done]. simpl.
  apply Forall_forall. intros r' [[-> _]|[Hr' _]]%elem_of_replace_row.
  - rewrite run_new_status. cbn.
    unfold known_status. destruct a; simpl; tauto.
  - destruct (run_table_cases (TG_UPDATE OLD)
                (update_updated_at_column now (apply_set (status_update a) OLD))
                now (db_requests db)) as [E|E]; rewrite E in Hr'.
    + by eapply Forall_forall in Hk.
    + apply list_elem_of_fmap in Hr' as (r & -> & Hr).
      rewrite reposition_status. by eapply Forall_forall in Hk.
Qed.

(** X20. The statuses the handlers write. No constraint of the table
    restricts [status]; when every request has one of 'pending', 'approved'
    and 'rejected', it stays so under [handleSubmit] and under
    [handleApprovalAction], whatever their arguments. *)
Theorem handlers_keep_statuses
    user profile (title content : string) requestId (a : decision)
    (now now' : timestamptz) (gen_random_uuid : uuid) db :
  statuses_known (db_requests db) →
  statuses_known
    (db_requests (handleSubmit user profile title content
                    now gen_random_uuid db).1)
  ∧ statuses_known
      (db_requests (handleApprovalAction user profile requestId a
                      now now' gen_random_uuid db).1).
Proof.
  intros Hk. split.
  - unfold handleSubmit. destruct user as [usr|], profile as [p|]; try done.
    destruct (insert_request _ _ _ _ _) as [db'|e] eqn:Hins; [|done].
    apply insert_request_ok in Hins as (NEW & Hp & _ & E); [|done].
    simpl. rewrite E. apply Forall_app. split.
    + apply Forall_fmap, Forall_forall. intros r Hr. simpl.
      rewrite reposition_status. by eapply Forall_forall in Hk.
    + apply Forall_singleton. simpl. unfold known_status. tauto.
  - destruct (handleApprovalAction_requests user profile requestId a
                now now' gen_random_uuid db) as [E|E]; rewrite E; [done|].
    by apply update_request_statuses.
Qed.

Lemma handlers_keep_statuses_witness :
  statuses_known (db_requests Scenario.three)
  ∧ statuses_known
      (db_requests (handleApprovalAction (Some "carol"%string)
                      (Some Scenario.carol) "r2" rejected 40 41 "a1"
                      Scenario.three).1).
Proof.
  assert (statuses_known (db_requests Scenario.three)) as Hk by by_computation.
  split; [exact Hk|].
  apply (handlers_keep_statuses (Some "carol"%string) (Some Scenario.carol)
           "t" "c" "r2" rejected 40 41 "a1" Scenario.three Hk).
Defined.

Lemma known_statuses_add_up (tbl : list row) :
  statuses_known tbl →
  (length (filter (λ r, status r = "pending"%string) tbl)
   + length (filter (λ r, status r = "approved"%string) tbl)
   + length (filter (λ r, status r = "rejected"%string) tbl)
   = length tbl)%nat.
Proof.
  induction 1 as [|r tbl Hr _ IH]; [done|].
  rewrite !filter_cons.
  destruct Hr as [E|[E|E]]; rewrite E; simpl; lia.
Qed.

(** X21. The statistics of the administration page. When every request has
    one of the three statuses, the three status counts of [loadAdminData]
    add up to its total, and its count of pending requests is the length
    of the pending list of the queue page. *)
Theorem admin_stats_add_up db :
  statuses_known (db_requests db) →
  (Admin.pendingRequests (Admin.loadAdminData db)
   + Admin.approvedRequests (Admin.loadAdminData db)
   + Admin.rejectedRequests (Admin.loadAdminData db)
   = Admin.totalRequests (Admin.loadAdminData db))%nat
  ∧ Admin.pendingRequests (Admin.loadAdminData db)
    = length (ApprovalQueue.pendingRequests (ApprovalQueue.fetchRequests db)).
Proof.
  intros Hk. split; [by apply known_statuses_add_up|].
  unfold Admin.loadAdminData, ApprovalQueue.pendingRequests,
    ApprovalQueue.fetchRequests. simpl.
  rewrite filter_fmap, length_fmap.
  apply Permutation_length, filter_Permutation. symmetry.
  apply merge_sort_Permutation.
Qed.

Lemma admin_stats_add_up_witness :
  statuses_known (db_requests Scenario.decided)
  ∧ Admin.pendingRequests (Admin.loadAdminData Scenario.decided)
    = length (ApprovalQueue.pendingRequests
                (ApprovalQueue.fetchRequests Scenario.decided)).
Proof.
  assert (statuses_known (db_requests Scenario.decided)) as Hk
    by by_computation.
  split; [exact Hk|]. apply (admin_stats_add_up Scenario.decided Hk).
Defined.

(** ** The comment box *)

(** X22. The comment of a decision. The handler of the version with a
    comment box treats profiles and requests as [handleApprovalAction]
    does and raises the same notice; with an empty box it is the same
    function, and a decision that goes through with a comment typed
    records that comment, as typed, on the action it appends. *)
Theorem comment_is_recorded
    user profile requestId (a : decision) (comment : string)
    (now_update now_insert : timestamptz) (gen_random_uuid : uuid) db :
  let with_comment :=
    handleApprovalAction_with_comment user profile requestId a comment
      now_update now_insert gen_random_uuid db in
  let without :=
    handleApprovalAction user profile requestId a
      now_update now_insert gen_random_uuid db in
  with_comment.2 = without.2
  ∧ db_profiles with_comment.1 = db_profiles without.1
  ∧ db_requests with_comment.1 = db_requests without.1
  ∧ (comment = ""%string → with_comment = without)
  ∧ (comment ≠ ""%string → with_comment.2 = toast_decided a →
     ∃ act,
       db_actions with_comment.1 = db_actions db ++ [act]
       ∧ approval_actions.comment act = Some comment
       ∧ approval_actions.request_id act = requestId
       ∧ user = Some (approval_actions.approver_id act)
       ∧ approval_actions.action act = decision_text a).
Proof.
  unfold handleApprovalAction_with_comment, handleApprovalAction.
  destruct user as [usr|], profile as [p|]; simpl; try done.
  case_decide as Hrole; simpl; [done|].
  set (db1 := (update_request (Some usr) now_update (status_update a)
                              requestId db).1).
  assert (db_actions db1 = db_actions db) as Hacts.
  { unfold db1, update_request.
    destruct (find_row requestId (db_requests db)); [|done].
    case_decide; [|done]. done. }
  destruct (decide (comment = ""%string)) as [->|Hne].
  { split_and!; try done; by destruct (insert_action _ _ _ _ _). }
  unfold insert_action, action_record. simpl.
  repeat match goal with
         | |- context [decide (can_insert_action ?ps ?u ?act)] =>
             destruct (decide (can_insert_action ps u act))
               as [[_ ?]|Hno]
         end;
    try (exfalso;
         match goal with
         | Hno : ¬ can_insert_action _ _ _ |- _ => by apply Hno
         end);
    repeat case_decide; split_and!; try done.
  intros _ _. rewrite Hacts. eauto 10.
Qed.

Lemma comment_is_recorded_witness :
  ∃ act,
    db_actions (handleApprovalAction_with_comment (Some "carol"%string)
                  (Some Scenario.carol) "r2" rejected "see me"
                  40 41 "a1" Scenario.three).1
    = db_actions Scenario.three ++ [act]
    ∧ approval_actions.comment act = Some "see me"%string.
Proof.
  destruct (comment_is_recorded (Some "carol"%string) (Some Scenario.carol)
              "r2" rejected "see me" 40 41 "a1" Scenario.three)
    as (_ & _ & _ & _ & Hrec).
  destruct Hrec as (act & Hacts & Hcomment & _); [done | reflexivity |].
  exists act. by split.
Defined.

Lemma row_number_counts_earlier_witness :
  Forall (λ r,
    row_number TG_INSERT Scenario.probe (db_requests Scenario.three) r
    = Some (1 + Z.of_nat (length (filter
                (λ x, in_scope TG_INSERT Scenario.probe x
                      ∧ created_at x < created_at r)
                (db_requests Scenario.three)))))
    (db_requests Scenario.three).
Proof.
  assert (Forall (λ r,
            in_scope TG_INSERT Scenario.probe r
            ∧ Forall (λ r', in_scope TG_INSERT Scenario.probe r' →
                            created_at r' = created_at r → id r' = id r)
                     (db_requests Scenario.three))
            (db_requests Scenario.three)) as Hall by by_computation.
  apply Forall_forall. intros r Hr.
  eapply Forall_forall in Hall as [Hs Huniq]; [|exact Hr].
  apply (row_number_counts_earlier TG_INSERT Scenario.probe
           (db_requests Scenario.three) r); [by_computation | exact Hr | exact Hs |].
  intros r' Hr'. by eapply Forall_forall in Huniq.
Defined.

(** ** Idempotence of the recompute, by rank *)

(** In a table at rank with distinct creation times, the guard of the inner
    UPDATE lets a row through exactly when the row is in scope and some
    pending request created before it is not. *)
Lemma needs_rewrite_at_rank ev NEW tbl r :
  primary_key tbl → at_rank tbl → distinct_times tbl → r ∈ tbl →
  needs_rewrite (ranked_requests ev NEW tbl) r
  ↔ in_scope ev NEW r
    ∧ Exists (λ o, status o = "pending"%string
                   ∧ created_at o < created_at r
                   ∧ ¬ in_scope ev NEW o) tbl.
Proof.
  intros Hpk Hrank Hdist Hr.
  destruct (decide (in_scope ev NEW r)) as [Hs|Hs]; last first.
  { split; [|tauto]. intros (p & Hp & _).
    by rewrite (ranked_out_of_scope ev NEW tbl r Hpk Hr Hs) in Hp. }
  destruct (ranked_in_scope ev NEW tbl r Hpk Hr Hs) as (i & Hi & Hp).
  assert (∀ r', r' ∈ tbl → in_scope ev NEW r' →
                created_at r' = created_at r → id r' = id r) as Huniq.
  { intros r' Hr' [Hp' _] E. destruct Hs as [Hpr _].
    eapply Forall_forall in Hdist; [|exact Hr'].
    eapply Forall_forall in Hdist; [|exact Hr]. by apply Hdist. }
  pose proof (ranked_index_counts_earlier ev NEW tbl r i Hpk Huniq Hi) as Ei.
  assert (queue_position r = Some (count_earlier r tbl + 1)) as Hstored.
  { eapply Forall_forall in Hrank; [|exact Hr]. apply Hrank, Hs. }
  pose proof (filter_and_length
                (λ x, status x = "pending"%string
                      ∧ created_at x < created_at r)
                (in_scope ev NEW) tbl) as Hcount.
  cbn beta in Hcount.
  assert (length (filter (λ x, (status x = "pending"%string
                                ∧ created_at x < created_at r)
                               ∧ in_scope ev NEW x) tbl) = i) as Ei'.
  { rewrite <-Ei. f_equal. apply list_filter_iff.
    intros x. unfold in_scope. tauto. }
  rewrite Ei' in Hcount.
  assert (needs_rewrite (ranked_requests ev NEW tbl) r
          ↔ i ≠ length (filter (λ x, status x = "pending"%string
                                     ∧ created_at x < created_at r) tbl))
    as ->.
  { unfold needs_rewrite. rewrite Hp, Hstored. unfold count_earlier. split.
    - intros (p & [= <-] & Hne) E. apply Hne. f_equal. lia.
    - intros Hne. eexists. split; [done|]. intros [= E]. apply Hne. lia. }
  rewrite Hcount. split.
  - intros Hnot. split; [done|].
    destruct (decide (Exists (λ o, status o = "pending"%string
                                   ∧ created_at o < created_at r
                                   ∧ ¬ in_scope ev NEW o) tbl))
      as [|Hnone]; [done|].
    destruct Hnot. intros x Hx [Hpx Hlt].
    destruct (decide (in_scope ev NEW x)); [done|].
    destruct Hnone. apply Exists_exists. by exists x.
  - intros [_ (o & Ho & Hpo & Hlt & Hout)%Exists_exists] Hall.
    apply Hout, Hall; [done|]. by split.
Qed.




(** Two pending requests with one creation time hold one rank, and the
    recompute, which numbers them apart, rewrites one of them. *)
Lemma tied_queue_is_rewritten :
  at_rank (db_requests Scenario.tied)
  ∧ length (run_rewritten (update_queue_positions TG_INSERT Scenario.probe 6
                             (db_requests Scenario.tied))) = 1%nat.
Proof. split; [by_computation | reflexivity]. Qed.

(** X23. With distinct creation times, running the trigger function again
    for the same event on the table its first run left writes nothing,
    whatever the table the first run started from and in whatever order
    the second run finds the rows. *)
Lemma maintainer_twice ev NEW now now' tbl tbl' :
  primary_key tbl → distinct_times tbl →
  tbl' ≡ₚ run_table (update_queue_positions ev NEW now tbl) →
  run_rewritten (update_queue_positions ev NEW now' tbl') = []
  ∧ run_table (update_queue_positions ev NEW now' tbl') = tbl'.
Proof.
  intros Hpk Hdist Hperm.
  destruct (decide (maintainer_fires ev NEW)) as [Hf|Hf]; last first.
  { unfold update_queue_positions. by rewrite decide_False. }
  set (rk := ranked_requests ev NEW tbl).
  assert (tbl' ≡ₚ reposition now rk <$> tbl) as Hperm'.
  { rewrite Hperm. unfold update_queue_positions. by rewrite decide_True. }
  clear Hperm.
  assert (primary_key tbl') as Hpk'.
  { unfold primary_key. rewrite Hperm', <-list_fmap_compose.
    rewrite (list_fmap_ext (id ∘ reposition now rk) id tbl); [done|].
    intros _ r _. apply reposition_id. }
  unfold update_queue_positions. rewrite decide_True by done. simpl.
  destruct (skipped_table_is_unchanged now' (ranked_requests ev NEW tbl') tbl')
    as [-> ->]; [|done].
  intros r' Hr' (p & Hp & Hne).
  assert (r' ∈ reposition now rk <$> tbl) as (r & -> & Hr)%list_elem_of_fmap
    by by rewrite <-Hperm'.
  destruct (decide (in_scope ev NEW r)) as [Hs|Hs]; last first.
  { rewrite ranked_out_of_scope in Hp; [done..|].
    unfold in_scope. by rewrite reposition_status, reposition_id. }
  assert (in_scope ev NEW (reposition now rk r)) as Hs'.
  { unfold in_scope. by rewrite reposition_status, reposition_id. }
  assert (∀ x y, x ∈ tbl → y ∈ tbl → in_scope ev NEW x → in_scope ev NEW y →
                 created_at x = created_at y → id x = id y) as Huniq.
  { intros x y Hx Hy [Hpx _] [Hpy _] E.
    eapply Forall_forall in Hdist; [|exact Hx].
    eapply Forall_forall in Hdist; [|exact Hy]. by apply Hdist. }
  destruct (ranked_in_scope ev NEW tbl r Hpk Hr Hs) as (i & Hi & Hpi).
  pose proof (ranked_index_counts_earlier ev NEW tbl r i Hpk
                (λ x Hx Hsx E, Huniq x r Hx Hr Hsx Hs E) Hi) as Ei.
  destruct (ranked_in_scope ev NEW tbl' _ Hpk' Hr' Hs') as (j & Hj & Hpj).
  assert (length (filter (λ x, in_scope ev NEW x
                               ∧ created_at x
                                 < created_at (reposition now rk r)) tbl')
          = j) as Ej.
  { apply (ranked_index_counts_earlier ev NEW tbl' _ j Hpk'); [|exact Hj].
    intros x Hx Hsx E. rewrite Hperm' in Hx.
    apply list_elem_of_fmap in Hx as (x0 & -> & Hx0).
    rewrite !reposition_id. rewrite !reposition_created_at in E.
    apply Huniq; [done..| |done|done].
    revert Hsx. unfold in_scope. by rewrite reposition_status, reposition_id. }
  assert (j = i) as ->.
  { rewrite <-Ej, <-Ei, Hperm', filter_fmap, length_fmap. f_equal.
    apply list_filter_iff. intros x. unfold in_scope. simpl.
    by rewrite reposition_status, reposition_id, !reposition_created_at. }
  apply Hne. rewrite (reposition_position _ _ _ _ Hpi). congruence.
Qed.

Lemma maintainer_twice_witness :
  primary_key (db_requests Scenario.deleted)
  ∧ distinct_times (db_requests Scenario.deleted)
  ∧ run_rewritten (update_queue_positions TG_INSERT Scenario.probe 3
                     (db_requests Scenario.deleted)) = ["r3"%string]
  ∧ run_rewritten
      (update_queue_positions TG_INSERT Scenario.probe 4
         (reverse (run_table (update_queue_positions TG_INSERT Scenario.probe 3
                                (db_requests Scenario.deleted))))) = [].
Proof.
  assert (primary_key (db_requests Scenario.deleted)) as Hpk by by_computation.
  assert (distinct_times (db_requests Scenario.deleted)) as Hdist
    by by_computation.
  split_and!; [exact Hpk | exact Hdist | reflexivity |].
  apply (maintainer_twice TG_INSERT Scenario.probe 3 4
           (db_requests Scenario.deleted) _ Hpk Hdist).
  apply reverse_Permutation.
Defined.
